(** * Drawdown alerts for leveraged ETFs: a model of scripts/check_drawdown.py

    The script downloads two years of daily closes for each configured
    symbol, measures the drawdown of the last close from the highest close
    of the trailing 252 trading days, maps it onto the symbol's ladder of
    thresholds and files a GitHub issue when a deeper level is reached than
    the one recorded in .state/drawdown_state.json.

    Python floats are IEEE binary64 numbers and are modelled by Rocq's
    primitive floats; Python ints are [Z]; the state dictionary is a finite
    map from symbols to records; calls that leave the process (the price
    provider, the gh command line tool, the state file) go through an
    explicit world that records them. *)

From Stdlib Require Import Floats ZArith Bool.
From stdpp Require Import gmap strings list pretty sorting.

Set Warnings "-inexact-float".
Local Open Scope Z_scope.

(** ** Exceptions and results *)

(** The three RuntimeErrors raised by fetch_snapshot, told apart by their
    message. *)
Inductive fetch_error :=
  | FailedToFetch (symbol : string)
  | CloseColumnNotFound (symbol : string)
  | NotEnoughData (symbol : string) (rows : nat).

Inductive exn :=
  | RuntimeError (why : fetch_error)
  | ZeroDivisionError
  | ValueError
  | IndexError
  | CalledProcessError.

Inductive result (A : Type) :=
  | Ok (a : A)
  | Raise (e : exn).
Arguments Ok {A} a.
Arguments Raise {A} e.

(** ** Calendar dates *)

Record date := Date { year : nat; month : nat; day : nat }.

Definition zfill (width : nat) (s : string) : string :=
  String.concat "" (replicate (width - String.length s) "0") +:+ s.

(** datetime.date.isoformat: YYYY-MM-DD. *)
Definition isoformat (d : date) : string :=
  zfill 4 (pretty (year d)) +:+ "-" +:+ zfill 2 (pretty (month d)) +:+ "-"
    +:+ zfill 2 (pretty (day d)).

Definition date_ltb (a b : date) : bool :=
  let lt := Nat.ltb in
  let eq := Nat.eqb in
  lt (year a) (year b)
  || (eq (year a) (year b)
      && (lt (month a) (month b)
          || (eq (month a) (month b) && lt (day a) (day b)))).

Definition date_leb (a b : date) : bool := negb (date_ltb b a).

(** ** Data model *)

Module Snapshot.
Record t := Make {
  last_date : string;
  last_close : float;
  peak_date : string;
  peak_value : float;
  drawdown : float  (* negative *)
}.
End Snapshot.

(** One entry of state["symbols"]. The entry is a JSON object; a key
    that is absent, or present with value null, reads as [None]. The
    other values have the types save_state writes: an int for
    notified_level, strings for the dates and the timestamp, floats for
    the prices and the drawdown. *)
Module SymState.
Record t := Make {
  notified_level : option Z;
  updated_at : option string;
  last_date : option string;
  last_close : option float;
  peak_date : option string;
  peak_value : option float;
  drawdown : option float
}.

(** The empty dict. *)
Definition empty : t := Make None None None None None None None.

(** sym_state["notified_level"] = level *)
Definition set_notified_level (level : Z) (s : t) : t :=
  Make (Some level) (updated_at s) (last_date s) (last_close s)
       (peak_date s) (peak_value s) (drawdown s).

(** sym_state.update of the six mirrored keys; notified_level is not
    among them. *)
Definition update (now : string) (snap : Snapshot.t) (s : t) : t :=
  Make (notified_level s)
       (Some now)
       (Some (Snapshot.last_date snap))
       (Some (Snapshot.last_close snap))
       (Some (Snapshot.peak_date snap))
       (Some (Snapshot.peak_value snap))
       (Some (Snapshot.drawdown snap)).
End SymState.

Record AppState := {
  version : Z;
  symbols : gmap string SymState.t
}.

(** state["symbols"][symbol] = sym_state *)
Definition set_symbol (symbol : string) (s : SymState.t) (state : AppState)
  : AppState :=
  {| version := version state; symbols := <[symbol := s]> (symbols state) |}.

(** The table yfinance returns: a date index and named float columns, a
    missing observation being NaN. *)
Record DataFrame := {
  index : list date;
  columns : list (string * list float)
}.

(** A pandas Series: labelled values in index order. *)
Definition Series := list (date * float).

(** The arguments of create_issue; title and body of the issue are
    formatted from them (and from MENTION_ID and RULES). *)
Record Issue := {
  i_symbol : string;
  i_level : Z;
  i_snap : Snapshot.t;
  i_threshold : float
}.

(** ** Configuration *)

Definition RULES : list (string * list float) :=
  [ ("TQQQ", [-0.30; -0.55; -0.75]%float);
    ("SOXL", [-0.45; -0.65; -0.85]%float);
    ("TECL", [-0.25; -0.50; -0.75]%float) ].

Definition LOOKBACK_TRADING_DAYS : nat := 252.

(** ** The world outside the process *)

(** What one run finds outside: the provider's answer for each symbol
    ([None] is Python's None), whether the gh command exits with status
    zero, and the clock. *)
Record Env := {
  yf_download : string -> option DataFrame;
  gh_succeeds : Issue -> bool;
  utcnow : string
}.

Inductive event :=
  | Download (symbol : string)
  | GhIssueCreate (issue : Issue).

(** The state file ([None] while it does not exist) and the calls made
    so far, oldest first. *)
Record World := {
  state_file : option AppState;
  calls : list event
}.

Definition M (A : Type) : Type := Env -> World -> World * result A.

#[global] Instance M_ret : MRet M := fun A a _ w => (w, Ok a).
#[global] Instance M_bind : MBind M := fun A B f m env w =>
  match m env w with
  | (w', Ok a) => f a env w'
  | (w', Raise e) => (w', Raise e)
  end.

Definition raise {A} (e : exn) : M A := fun _ w => (w, Raise e).
Definition lift_result {A} (r : result A) : M A := fun _ w => (w, r).
Definition ask {A} (f : Env -> A) : M A := fun env w => (w, Ok (f env)).
Definition call (ev : event) : M unit := fun _ w =>
  ({| state_file := state_file w; calls := calls w ++ [ev] |}, Ok tt).

Fixpoint foldM {A B} (f : B -> A -> M B) (b : B) (l : list A) : M B :=
  match l with
  | [] => mret b
  | a :: l => b' ← f b a; foldM f b' l
  end.

(** ** The state store *)

(** load_state: the contents of the file, or a fresh state. A file that
    is present is taken to hold a state of the shape save_state writes;
    text that json.loads refuses, a document without the key symbols and
    a notified_level that int refuses are outside the model. *)
Definition load_state : M AppState := fun _ w =>
  (w, Ok (match state_file w with
          | Some state => state
          | None => {| version := 1; symbols := ∅ |}
          end)).

(** save_state overwrites the file with the whole state. *)
Definition save_state (state : AppState) : M unit := fun _ w =>
  ({| state_file := Some state; calls := calls w |}, Ok tt).

(** ** pandas operations used by fetch_snapshot *)

Definition is_nan (x : float) : bool := negb (PrimFloat.eqb x x).

(** df.empty: an axis of length zero. *)
Definition df_empty (df : DataFrame) : bool :=
  match index df, columns df with
  | [], _ | _, [] => true
  | _, _ => false
  end.

(** df[name], for name in df.columns. *)
Definition df_column (name : string) (df : DataFrame) : option Series :=
  match list_find (fun c => bool_decide (c.1 = name)) (columns df) with
  | Some (_, (_, values)) => Some (zip (index df) values)
  | None => None
  end.

(** Series.dropna *)
Definition dropna (s : Series) : Series :=
  filter (fun p => is_nan p.2 = false) s.

(** s.iloc[-n:], the last n rows, or all of them when there are fewer. *)
Definition iloc_last (n : nat) (s : Series) : Series :=
  drop (length s - n) s.

(** The row holding the greatest value, the first such row on ties (the
    argmax scan: a later row replaces the current one only when it is
    strictly greater). *)
Definition greatest (s : Series) : option (date * float) :=
  match s with
  | [] => None
  | p :: rest =>
      Some (foldl (fun best q => if PrimFloat.ltb best.2 q.2 then q else best)
                  p rest)
  end.

(** Series.max: NaN on an empty series. *)
Definition series_max (s : Series) : float :=
  match greatest s with
  | Some p => p.2
  | None => nan
  end.

(** Series.idxmax: the label of the first occurrence of the maximum;
    ValueError on an empty series. *)
Definition series_idxmax (s : Series) : result date :=
  match greatest s with
  | Some p => Ok p.1
  | None => Raise ValueError
  end.

(** s.iloc[-1] and s.index[-1] *)
Definition iloc_minus1 (s : Series) : result (date * float) :=
  match last s with
  | Some p => Ok p
  | None => Raise IndexError
  end.

(** Python's float division. *)
Definition truediv (x y : float) : result float :=
  if PrimFloat.eqb y 0 then Raise ZeroDivisionError else Ok (x / y)%float.

(** ** fetch_snapshot *)

Definition fetch_snapshot (symbol : string) : M Snapshot.t :=
  _ ← call (Download symbol);
  df ← ask (fun env => yf_download env symbol);
  match df with
  | None => raise (RuntimeError (FailedToFetch symbol))
  | Some df =>
      if df_empty df then raise (RuntimeError (FailedToFetch symbol))
      else
        match df_column "Close" df with
        | None => raise (RuntimeError (CloseColumnNotFound symbol))
        | Some col =>
            let close := dropna col in
            if bool_decide (length close < 60)%nat
            then raise (RuntimeError (NotEnoughData symbol (length close)))
            else
              let tail := iloc_last LOOKBACK_TRADING_DAYS close in
              let peak_value := series_max tail in
              peak ← lift_result (series_idxmax tail);
              let peak_date := isoformat peak in
              last ← lift_result (iloc_minus1 tail);
              let last_value := last.2 in
              let last_date := isoformat last.1 in
              q ← lift_result (truediv last_value peak_value);
              let dd := (q - 1.0)%float in
              mret (Snapshot.Make last_date last_value peak_date peak_value dd)
        end
  end.

(** ** decide_level *)

(** enumerate(l, start) *)
Fixpoint enumerate {A} (start : Z) (l : list A) : list (Z * A) :=
  match l with
  | [] => []
  | x :: l => (start, x) :: enumerate (start + 1) l
  end.

Definition decide_level (drawdown : float) (levels : list float) : option Z :=
  foldl (fun hit '(i, th) => if PrimFloat.leb drawdown th then Some i else hit)
        None (enumerate 1 levels).

(** ** create_issue *)

(** l[i] with Python's negative indices and IndexError. *)
Definition getitem {A} (l : list A) (i : Z) : result A :=
  let n := Z.of_nat (length l) in
  let j := if i <? 0 then i + n else i in
  if (j <? 0) || (n <=? j) then Raise IndexError
  else match l !! Z.to_nat j with
       | Some x => Ok x
       | None => Raise IndexError
       end.

(** run(["gh", "issue", "create", ...]) with check=True: the call is made,
    and a non-zero exit status raises CalledProcessError. *)
Definition create_issue (symbol : string) (level : Z) (snap : Snapshot.t)
    (threshold : float) : M unit :=
  let issue := {| i_symbol := symbol; i_level := level; i_snap := snap;
                  i_threshold := threshold |} in
  _ ← call (GhIssueCreate issue);
  ok ← ask (fun env => gh_succeeds env issue);
  if ok : bool then mret tt else raise CalledProcessError.

(** ** main *)

(** x or 0, for an int or None x *)
Definition or_zero (x : option Z) : Z :=
  match x with
  | Some n => if n =? 0 then 0 else n
  | None => 0
  end.

(** The body of the loop over RULES.items(): one symbol is evaluated
    against the state built so far. *)
Definition main_loop_body (now : string) (state : AppState)
    (rule : string * list float) : M AppState :=
  let '(symbol, levels) := rule in
  snap ← fetch_snapshot symbol;
  let hit_level := decide_level (Snapshot.drawdown snap) levels in
  let sym_state := default SymState.empty (symbols state !! symbol) in
  let last_peak_date := SymState.peak_date sym_state in
  let last_notified_level := or_zero (SymState.notified_level sym_state) in
  (* a moved peak resets the notified level *)
  let last_notified_level :=
    if bool_decide (last_peak_date ≠ Some (Snapshot.peak_date snap))
    then 0 else last_notified_level in
  sym_state ←
    match hit_level with
    | Some hit =>
        if bool_decide (hit > last_notified_level) then
          threshold ← lift_result (getitem levels (hit - 1));
          _ ← create_issue symbol hit snap threshold;
          mret (SymState.set_notified_level hit sym_state)
        else mret sym_state
    | None => mret sym_state
    end;
  let sym_state := SymState.update now snap sym_state in
  mret (set_symbol symbol sym_state state).

Definition main : M unit :=
  state ← load_state;
  now ← ask utcnow;
  state ← foldM (main_loop_body now) state RULES;
  save_state state.

(** ** The title create_issue gives the issue *)

(** The quotient n / d of a non-negative n by a positive d, rounded to the
    nearest integer, a tie going to the even one. *)
Definition round_half_even (n d : Z) : Z :=
  let q := n / d in
  let r := n mod d in
  match 2 * r ?= d with
  | Lt => q
  | Gt => q + 1
  | Eq => if Z.even q then q else q + 1
  end.

(** format(x, ".0f"): the exact value of the float rounded to an integer,
    ties to even, the sign kept also when the digits are 0. *)
Definition format_f0 (x : float) : string :=
  match Prim2SF x with
  | S754_nan => "nan"
  | S754_infinity s => if s then "-inf" else "inf"
  | S754_zero s => if s then "-0" else "0"
  | S754_finite s m e =>
      let n := if 0 <=? e then Z.pos m * 2 ^ e
               else round_half_even (Z.pos m) (2 ^ (- e)) in
      (if s then "-" else "") +:+ pretty n
  end.

(** The f-string of the title: symbol, level, peak date and the threshold
    in percent. *)
Definition issue_title (issue : Issue) : string :=
  "[DD Alert] " +:+ i_symbol issue +:+ " L" +:+ pretty (i_level issue)
    +:+ " since " +:+ Snapshot.peak_date (i_snap issue)
    +:+ " (<= " +:+ format_f0 (i_threshold issue * 100) +:+ "%)".

(** ** Notions used in the statements *)

(** The IEEE comparison of two floats: [None] when one of them is NaN. *)
Definition fcompare (x y : float) : option comparison :=
  SFcompare (Prim2SF x) (Prim2SF y).

(** Level i (1-indexed) of a ladder is reached by a drawdown that is at or
    below the threshold at that position. *)
Definition reached (drawdown : float) (levels : list float) (i : Z) : Prop :=
  1 <= i /\ exists th, levels !! Z.to_nat (i - 1) = Some th /\
                     PrimFloat.leb drawdown th = true.

(** A ladder that never gets shallower: each threshold is at or below the
    one before it. *)
Definition non_increasing (levels : list float) : Prop :=
  forall (i : nat) (a b : float),
    levels !! i = Some a -> levels !! S i = Some b ->
    PrimFloat.leb b a = true.

(** The snapshot a run computes for a symbol, or the exception
    fetch_snapshot raises: it depends on the provider's answer alone. *)
Definition fetched (env : Env) (symbol : string) : result Snapshot.t :=
  (fetch_snapshot symbol env {| state_file := None; calls := [] |}).2.

Definition log_call (ev : event) (w : World) : World :=
  {| state_file := state_file w; calls := calls w ++ [ev] |}.

(** The entry of a symbol as the loop reads it: an empty dict when the
    symbol has none. *)
Definition entry (state : AppState) (symbol : string) : SymState.t :=
  default SymState.empty (symbols state !! symbol).

(** The level a hit is compared with: the stored one, or 0 when the
    stored peak date is not the snapshot's. *)
Definition effective_level (ss : SymState.t) (snap : Snapshot.t) : Z :=
  if bool_decide (SymState.peak_date ss ≠ Some (Snapshot.peak_date snap))
  then 0 else or_zero (SymState.notified_level ss).

(** The issue an evaluation files, if any. *)
Definition owed (symbol : string) (levels : list float) (ss : SymState.t)
    (snap : Snapshot.t) : option Issue :=
  match decide_level (Snapshot.drawdown snap) levels with
  | Some hit =>
      if bool_decide (hit > effective_level ss snap) then
        match levels !! Z.to_nat (hit - 1) with
        | Some th => Some {| i_symbol := symbol; i_level := hit;
                             i_snap := snap; i_threshold := th |}
        | None => None
        end
      else None
  | None => None
  end.

(** The entry an evaluation leaves behind. *)
Definition next_entry (now : string) (ss : SymState.t) (snap : Snapshot.t)
    (alert : option Issue) : SymState.t :=
  SymState.update now snap
    match alert with
    | Some issue => SymState.set_notified_level (i_level issue) ss
    | None => ss
    end.

(** What the state file records for a symbol. *)
Definition file_entry (w : World) (symbol : string) : option SymState.t :=
  state ← state_file w; symbols state !! symbol.

Definition file_level (w : World) (symbol : string) : option Z :=
  ss ← file_entry w symbol; SymState.notified_level ss.

Definition file_peak_date (w : World) (symbol : string) : option string :=
  ss ← file_entry w symbol; SymState.peak_date ss.

Definition event_symbol (ev : event) : string :=
  match ev with
  | Download symbol => symbol
  | GhIssueCreate issue => i_symbol issue
  end.

(** The calls a run added to the log. *)
Definition new_calls (w w' : World) : list event :=
  drop (length (calls w)) (calls w').

(** The issues filed for a symbol among some calls. *)
Definition alerts_for (symbol : string) (evs : list event) : list Issue :=
  omap (fun ev => match ev with
                  | GhIssueCreate issue =>
                      if bool_decide (i_symbol issue = symbol)
                      then Some issue else None
                  | Download _ => None
                  end) evs.

(** The state a run starts from. *)
Definition loaded (w : World) : AppState :=
  match state_file w with
  | Some state => state
  | None => {| version := 1; symbols := ∅ |}
  end.

(** The notified level a state holds for a symbol. *)
Definition stored_level (state : AppState) (symbol : string) : option Z :=
  ss ← symbols state !! symbol; SymState.notified_level ss.

Definition stored_peak_date (state : AppState) (symbol : string)
  : option string :=
  ss ← symbols state !! symbol; SymState.peak_date ss.

Definition alert (symbol : string) (level : Z) (snap : Snapshot.t)
    (threshold : float) : Issue :=
  {| i_symbol := symbol; i_level := level; i_snap := snap;
     i_threshold := threshold |}.

(** The six keys of an entry that mirror the last snapshot. *)
Definition mirrors (now : string) (snap : Snapshot.t) (ss : SymState.t) : Prop :=
  SymState.updated_at ss = Some now /\
  SymState.last_date ss = Some (Snapshot.last_date snap) /\
  SymState.last_close ss = Some (Snapshot.last_close snap) /\
  SymState.peak_date ss = Some (Snapshot.peak_date snap) /\
  SymState.peak_value ss = Some (Snapshot.peak_value snap) /\
  SymState.drawdown ss = Some (Snapshot.drawdown snap).

(** The issues filed for one symbol over successive runs, each with the
    number of its epoch. The world is handed from run to run; the epoch
    number moves on with every snapshot whose peak date is not that of the
    snapshot before it (for the first run: the peak date on file). *)
Fixpoint alert_history (symbol : string) (prev_peak : option string)
    (epoch : nat) (envs : list Env) (w : World) : list (nat * Issue) :=
  match envs with
  | [] => []
  | env :: envs =>
      let w' := (main env w).1 in
      let peak := match fetched env symbol with
                  | Ok snap => Some (Snapshot.peak_date snap)
                  | Raise _ => prev_peak
                  end in
      let epoch' := if bool_decide (peak ≠ prev_peak) then S epoch else epoch in
      (pair epoch' <$> alerts_for symbol (new_calls w w'))
        ++ alert_history symbol peak epoch' envs w'
  end.

(** The (epoch, level) pairs of a history. *)
Definition epoch_levels (history : list (nat * Issue)) : list (nat * Z) :=
  (fun p => (p.1, i_level p.2)) <$> history.

(** Every run of the sequence returns. *)
Fixpoint all_complete (envs : list Env) (w : World) : Prop :=
  match envs with
  | [] => True
  | env :: envs => (main env w).2 = Ok tt /\ all_complete envs (main env w).1
  end.

(** ** Sample data *)

(** Sixty trading days, in date order. *)
Definition sample_dates : list date :=
  (Date 2024 3 <$> seq 1 30) ++ (Date 2024 4 <$> seq 1 30).

Definition sample_frame (closes : list float) : DataFrame :=
  {| index := sample_dates; columns := [("Close", closes)] |}.

(** A close of 1.0 on the first day and the given close on the 59 days
    after it. *)
Definition after_peak (close : float) : list float :=
  1%float :: replicate 59 close.

(** The provider answers every symbol with the same closes, and gh works. *)
Definition env_uniform (closes : list float) (now : string) : Env :=
  {| yf_download := fun _ => Some (sample_frame closes);
     gh_succeeds := fun _ => true;
     utcnow := now |}.

(** The provider has data for TQQQ only. *)
Definition env_TQQQ_only (close : float) (now : string) : Env :=
  {| yf_download := fun symbol =>
       if bool_decide (symbol = "TQQQ")
       then Some (sample_frame (after_peak close)) else None;
     gh_succeeds := fun _ => true;
     utcnow := now |}.

(** No state file yet, no call made. *)
Definition fresh_world : World := {| state_file := None; calls := [] |}.

(** The ladder of TQQQ in RULES. *)
Definition TQQQ_levels : list float := [-0.30; -0.55; -0.75]%float.

(** An entry that records a peak date and a notified level. *)
Definition stored_entry (peak : string) (level : Z) : SymState.t :=
  SymState.Make (Some level) None None None (Some peak) None None.

(** A state with an entry for TQQQ alone, and the world whose file holds
    it. *)
Definition state_with (ss : SymState.t) : AppState :=
  {| version := 1; symbols := {["TQQQ" := ss]} |}.

Definition world_with (ss : SymState.t) : World :=
  {| state_file := Some (state_with ss); calls := [] |}.

(** The highest close, 1.0, on the second and on the third day. *)
Definition tied_closes : list float :=
  [0.5; 1; 1]%float ++ replicate 57 0.8%float.

(** A check of [ascending], for concrete indexes. *)
Fixpoint ascendingb (dates : list date) : bool :=
  match dates with
  | [] => true
  | d :: dates => forallb (date_ltb d) dates && ascendingb dates
  end.

(** Rows in strictly ascending date order. *)
Definition ascending (dates : list date) : Prop :=
  StronglySorted (fun a b => date_ltb a b = true) dates.

(** One row is dated before another. *)
Definition row_before (p q : date * float) : Prop := date_ltb p.1 q.1 = true.

(** The rows fetch_snapshot takes the peak and the last close from. *)
Definition window (col : Series) : Series :=
  iloc_last LOOKBACK_TRADING_DAYS (dropna col).

(** The requests made to the provider for a symbol among some calls. *)
Definition downloads_for (symbol : string) (evs : list event) : list string :=
  omap (fun ev => match ev with
                  | Download s => if bool_decide (s = symbol) then Some s else None
                  | GhIssueCreate _ => None
                  end) evs.

(** The dates Python's date type holds: years 1 to 9999, months 1 to 12,
    days 1 to 31 at most. *)
Definition date_in_range (d : date) : Prop :=
  (1 <= year d < 100 * 100)%nat /\ (1 <= month d <= 12)%nat /\
  (1 <= day d <= 31)%nat.

(** A world with the same state file and an empty log. *)
Definition forget_calls (w : World) : World :=
  {| state_file := state_file w; calls := [] |}.

(** One iteration of the loop of decide_level. *)
Definition level_step (drawdown : float) (hit : option Z) (p : Z * float)
  : option Z :=
  let '(i, th) := p in if PrimFloat.leb drawdown th then Some i else hit.

(** * Properties *)

(** ** The order of binary64 numbers

    The comparisons of primitive floats are those of [SFcompare] on their
    decoded form; what the proofs below need of them is derived here by
    case analysis on the two or three numbers compared. *)

Ltac sf_cases :=
  repeat match goal with
  | x : spec_float |- _ => destruct x as [[|]|[|]| |[|] ? ?]
  end; cbn [SFcompare CompOpp]; try congruence;
  change (Pos.compare_cont Eq) with Pos.compare;
  repeat match goal with
  | |- context [Z.compare ?a ?b] => destruct (Z.compare_spec a b); subst
  | |- context [Pos.compare ?a ?b] => destruct (Pos.compare_spec a b); subst
  end; cbn [CompOpp]; try congruence; try (intros; exfalso; lia).

Lemma SFcompare_antisym x y c :
  SFcompare x y = Some c -> SFcompare y x = Some (CompOpp c).
Proof. revert c. sf_cases; intros c [= <-]; reflexivity. Qed.

Lemma SFcompare_total x y :
  SFcompare x x <> None -> SFcompare y y <> None ->
  exists c, SFcompare x y = Some c.
Proof. sf_cases; eauto. Qed.

Lemma SFcompare_Lt_trans x y z :
  SFcompare x y = Some Lt -> SFcompare y z = Some Lt ->
  SFcompare x z = Some Lt.
Proof. sf_cases. Qed.

Lemma SFcompare_Eq_l x y z c :
  SFcompare x y = Some Eq -> SFcompare y z = Some c -> SFcompare x z = Some c.
Proof. revert c. sf_cases. Qed.

Lemma SFcompare_Eq_r x y z c :
  SFcompare x y = Some c -> SFcompare y z = Some Eq -> SFcompare x z = Some c.
Proof. revert c. sf_cases. Qed.

Section FloatOrder.
Implicit Types x y z : float.

Lemma leb_compare x y :
  PrimFloat.leb x y = true <->
  fcompare x y = Some Lt \/ fcompare x y = Some Eq.
Proof.
  rewrite FloatAxioms.leb_spec. unfold SFleb, fcompare.
  destruct (SFcompare _ _) as [[]|]; split; intros; try tauto;
    try discriminate; destruct H; discriminate.
Qed.

Lemma ltb_compare x y :
  PrimFloat.ltb x y = true <-> fcompare x y = Some Lt.
Proof.
  rewrite FloatAxioms.ltb_spec. unfold SFltb, fcompare.
  destruct (SFcompare _ _) as [[]|]; split; intros; congruence.
Qed.

Lemma eqb_compare x y :
  PrimFloat.eqb x y = true <-> fcompare x y = Some Eq.
Proof.
  rewrite FloatAxioms.eqb_spec. unfold SFeqb, fcompare.
  destruct (SFcompare _ _) as [[]|]; split; intros; congruence.
Qed.

Lemma not_nan_compare x : is_nan x = false <-> fcompare x x <> None.
Proof.
  unfold is_nan. rewrite negb_false_iff, eqb_compare. unfold fcompare.
  split; [congruence|]. intros H.
  destruct (SFcompare _ _) as [c|] eqn:E; [|done].
  pose proof (SFcompare_antisym _ _ _ E) as E'. rewrite E in E'.
  destruct c; done.
Qed.

Lemma leb_trans x y z :
  PrimFloat.leb x y = true -> PrimFloat.leb y z = true ->
  PrimFloat.leb x z = true.
Proof.
  rewrite !leb_compare. unfold fcompare.
  intros [H1|H1] [H2|H2]; eauto using SFcompare_Lt_trans,
    SFcompare_Eq_l, SFcompare_Eq_r.
Qed.

Lemma ltb_leb_trans x y z :
  PrimFloat.ltb x y = true -> PrimFloat.leb y z = true ->
  PrimFloat.ltb x z = true.
Proof.
  rewrite !ltb_compare, leb_compare. unfold fcompare.
  intros H1 [H2|H2]; eauto using SFcompare_Lt_trans, SFcompare_Eq_r.
Qed.

Lemma leb_ltb_trans x y z :
  PrimFloat.leb x y = true -> PrimFloat.ltb y z = true ->
  PrimFloat.ltb x z = true.
Proof.
  rewrite !ltb_compare, leb_compare. unfold fcompare.
  intros [H1|H1] H2; eauto using SFcompare_Lt_trans, SFcompare_Eq_l.
Qed.

Lemma ltb_leb x y : PrimFloat.ltb x y = true -> PrimFloat.leb x y = true.
Proof. rewrite ltb_compare, leb_compare. tauto. Qed.

(** x > y excludes x <= y. *)
Lemma ltb_not_leb x y :
  PrimFloat.ltb y x = true -> PrimFloat.leb x y = false.
Proof.
  rewrite ltb_compare. intros H. apply not_true_is_false.
  rewrite leb_compare. unfold fcompare in *.
  apply SFcompare_antisym in H. simpl in H. rewrite H.
  intros [?|?]; discriminate.
Qed.

(** Two numbers, neither of them NaN, are comparable. *)
Lemma not_ltb_leb x y :
  is_nan x = false -> is_nan y = false ->
  PrimFloat.ltb x y = false -> PrimFloat.leb y x = true.
Proof.
  rewrite !not_nan_compare. intros Hx Hy H.
  apply not_true_iff_false in H. rewrite ltb_compare in H.
  apply leb_compare. unfold fcompare in *.
  destruct (SFcompare_total _ _ Hx Hy) as [c Hc].
  destruct c; [| tauto |];
    apply SFcompare_antisym in Hc; simpl in Hc; tauto.
Qed.

Lemma eqb_leb x y : PrimFloat.eqb x y = true -> PrimFloat.leb x y = true.
Proof. rewrite eqb_compare, leb_compare. tauto. Qed.

End FloatOrder.

(** ** decide_level *)

Lemma decide_level_scan d levels start hit :
  let r := foldl (level_step d) hit (enumerate start levels) in
  (r = hit /\ forall (j : nat) th,
       levels !! j = Some th -> PrimFloat.leb d th = false)
  \/ (exists (j : nat) th,
       r = Some (start + Z.of_nat j) /\ levels !! j = Some th /\
       PrimFloat.leb d th = true /\
       forall (j' : nat) th', (j < j')%nat -> levels !! j' = Some th' ->
                              PrimFloat.leb d th' = false).
Proof.
  revert start hit. induction levels as [|x levels IH]; intros start hit r.
  - left. split; [done|]. intros j th Hj. by rewrite lookup_nil in Hj.
  - subst r. cbn [enumerate foldl].
    destruct (IH (start + 1) (level_step d hit (start, x)))
      as [[Hr Hnone]|(j & th & Hr & Hj & Hle & Hlast)].
    + rewrite Hr. cbn [level_step].
      destruct (PrimFloat.leb d x) eqn:Hx.
      * right. exists 0%nat, x. rewrite Z.add_0_r.
        repeat split; [done..|]. intros [|j'] th' Hlt Hj'; [lia|].
        by eapply Hnone.
      * left. split; [done|]. intros [|j] th Hj; [by injection Hj as <-|].
        by eapply Hnone.
    + right. exists (S j), th. rewrite Hr. repeat split; [f_equal; lia|done..|].
      intros [|j'] th' Hlt Hj'; [lia|]. eapply (Hlast j'); [lia|done].
Qed.

Lemma decide_level_unfold d levels :
  decide_level d levels = foldl (level_step d) None (enumerate 1 levels).
Proof.
  unfold decide_level. f_equal.
Qed.

Lemma non_increasing_le levels (i j : nat) a b d :
  non_increasing levels -> (i <= j)%nat ->
  levels !! i = Some a -> levels !! j = Some b ->
  PrimFloat.leb d b = true -> PrimFloat.leb d a = true.
Proof.
  intros Hmono Hij Hi. revert b. induction Hij as [|j Hij IH]; intros b Hj Hd.
  - congruence.
  - destruct (lookup_lt_is_Some_2 levels j) as [c Hc].
    { apply lookup_lt_Some in Hj. lia. }
    apply (IH c Hc). eapply leb_trans; [exact Hd|]. by eapply Hmono.
Qed.

Lemma reached_lookup d levels (j : nat) th :
  levels !! j = Some th -> PrimFloat.leb d th = true ->
  reached d levels (1 + Z.of_nat j).
Proof.
  intros Hj Hle. split; [lia|]. exists th.
  by replace (Z.to_nat (1 + Z.of_nat j - 1)) with j by lia.
Qed.

(** C2. decide_level returns the largest 1-indexed position whose
    threshold the drawdown is at or below, and None when there is none. On
    a ladder that never gets shallower, a drawdown at or below threshold
    k-1 and above threshold k (0-indexed; or with no threshold k at all)
    gives level k, and a drawdown above the first threshold gives None. *)
Theorem decide_level_deepest (d : float) (levels : list float) :
  match decide_level d levels with
  | Some i => reached d levels i /\ forall j, reached d levels j -> j <= i
  | None => forall j, ~ reached d levels j
  end
  /\ (non_increasing levels ->
      (forall (k : nat) th,
          (0 < k)%nat ->
          levels !! (k - 1)%nat = Some th -> PrimFloat.leb d th = true ->
          (forall th', levels !! k = Some th' -> PrimFloat.ltb th' d = true) ->
          decide_level d levels = Some (Z.of_nat k))
      /\ (forall th0,
            levels !! 0%nat = Some th0 -> PrimFloat.ltb th0 d = true ->
            decide_level d levels = None)).
Proof.
  rewrite decide_level_unfold.
  destruct (decide_level_scan d levels 1 None)
    as [[-> Hnone]|(j & th & -> & Hj & Hle & Hlast)].
  - split.
    + intros i (Hi & th & Hth & Hle). by rewrite (Hnone _ _ Hth) in Hle.
    + intros _. split; [|done].
      intros k th _ Hk Hle. by rewrite (Hnone _ _ Hk) in Hle.
  - split.
    + split; [by eapply reached_lookup|].
      intros i (Hi & th' & Hth' & Hle').
      destruct (decide (i <= 1 + Z.of_nat j)) as [|Hgt]; [done|].
      rewrite (Hlast (Z.to_nat (i - 1)) th') in Hle'; [done|lia|done].
    + intros Hmono. split.
      * intros k th' Hk Hth' Hle' Habove. f_equal.
        assert (k - 1 <= j)%nat as Hlow.
        { destruct (decide (k - 1 <= j)%nat) as [|Hgt]; [done|].
          rewrite (Hlast (k - 1)%nat th') in Hle'; [done|lia|done]. }
        destruct (decide (k <= j)%nat) as [Hkj|]; [|lia].
        destruct (lookup_lt_is_Some_2 levels k) as [c Hc].
        { apply lookup_lt_Some in Hj. lia. }
        pose proof (ltb_not_leb _ _ (Habove c Hc)) as Hnot.
        by rewrite (non_increasing_le levels k j c th d) in Hnot.
      * intros th0 H0 Habove. apply ltb_not_leb in Habove.
        by rewrite (non_increasing_le levels 0 j th0 th d) in Habove; [|done|lia|..].
Qed.

(** The examples of the specification, on the ladder of TQQQ. *)
Example decide_level_examples :
  let ladder := [-0.30; -0.55; -0.75]%float in
  decide_level (-0.40)%float ladder = Some 1 /\
  decide_level (-0.60)%float ladder = Some 2 /\
  decide_level (-0.90)%float ladder = Some 3 /\
  decide_level (-0.10)%float ladder = None.
Proof. vm_compute. done. Qed.

Lemma non_increasing_TQQQ : non_increasing [-0.30; -0.55; -0.75]%float.
Proof.
  intros [|[|[|i]]] a b Ha Hb; simpl in Ha, Hb; try discriminate;
    injection Ha as <-; injection Hb as <-; by vm_compute.
Defined.

Lemma decide_level_deepest_witness :
  let ladder := [-0.30; -0.55; -0.75]%float in
  non_increasing ladder /\
  decide_level (-0.60)%float ladder = Some 2 /\
  decide_level (-0.20)%float ladder = None.
Proof.
  intros ladder. split; [exact non_increasing_TQQQ|].
  destruct (decide_level_deepest (-0.60)%float ladder) as [_ Hmid].
  destruct (decide_level_deepest (-0.20)%float ladder) as [_ Htop].
  split.
  - apply (proj1 (Hmid non_increasing_TQQQ) 2%nat (-0.55)%float).
    + lia.
    + reflexivity.
    + by vm_compute.
    + intros th' [= <-]. by vm_compute.
  - apply (proj2 (Htop non_increasing_TQQQ) (-0.30)%float).
    + reflexivity.
    + by vm_compute.
Defined.

(** ** Running the monad *)

Lemma bind_run {A B} (m : M A) (f : A -> M B) env w :
  (m ≫= f) env w =
  match m env w with
  | (w', Ok a) => f a env w'
  | (w', Raise e) => (w', Raise e)
  end.
Proof. reflexivity. Qed.

Ltac run_m :=
  repeat (rewrite !bind_run;
          cbn [call ask raise lift_result mret M_ret fst snd]).

Lemma fetch_snapshot_run symbol env w :
  fetch_snapshot symbol env w = (log_call (Download symbol) w, fetched env symbol).
Proof.
  unfold fetched, fetch_snapshot. run_m.
  destruct (yf_download env symbol) as [df|]; [|done].
  destruct (df_empty df); [done|].
  destruct (df_column "Close" df) as [col|]; [|done].
  case_bool_decide; [done|]. run_m.
  destruct (series_idxmax _); [|done]. run_m.
  destruct (iloc_minus1 _); [|done]. run_m.
  destruct (truediv _ _); done.
Qed.

Lemma decide_level_getitem d levels hit :
  decide_level d levels = Some hit ->
  exists th, levels !! Z.to_nat (hit - 1) = Some th /\
             getitem levels (hit - 1) = Ok th /\ 1 <= hit.
Proof.
  rewrite decide_level_unfold. intros H.
  destruct (decide_level_scan d levels 1 None)
    as [[Hr _]|(j & th & Hr & Hj & _)]; cbn zeta in *; [congruence|].
  assert (hit = 1 + Z.of_nat j) as Hhit by congruence.
  assert (1 <= hit) as Hpos by lia.
  assert (levels !! Z.to_nat (hit - 1) = Some th) as Hth.
  { by replace (Z.to_nat (hit - 1)) with j by lia. }
  clear H Hr Hj Hhit j.
  exists th. split; [done|]. split; [|done].
  unfold getitem. pose proof (lookup_lt_Some _ _ _ Hth) as Hlt. cbn zeta.
  destruct (Z.ltb_spec (hit - 1) 0) as [|_]; [lia|].
  destruct (Z.ltb_spec (hit - 1) 0) as [|_]; [lia|].
  destruct (Z.leb_spec (Z.of_nat (length levels)) (hit - 1)) as [|_]; [lia|].
  by rewrite Hth.
Qed.

(** One evaluation, step by step. *)
Lemma main_loop_body_run now state symbol levels env w :
  main_loop_body now state (symbol, levels) env w =
  let w1 := log_call (Download symbol) w in
  match fetched env symbol with
  | Raise e => (w1, Raise e)
  | Ok snap =>
      let ss := entry state symbol in
      match owed symbol levels ss snap with
      | None => (w1, Ok (set_symbol symbol (next_entry now ss snap None) state))
      | Some issue =>
          let w2 := log_call (GhIssueCreate issue) w1 in
          if gh_succeeds env issue
          then (w2, Ok (set_symbol symbol
                          (next_entry now ss snap (Some issue)) state))
          else (w2, Raise CalledProcessError)
      end
  end.
Proof.
  unfold main_loop_body. rewrite bind_run, fetch_snapshot_run.
  destruct (fetched env symbol) as [snap|e]; [|reflexivity].
  cbn zeta. unfold owed, effective_level, entry.
  destruct (decide_level _ _) as [hit|] eqn:Hhit; [|reflexivity].
  destruct (decide_level_getitem _ _ _ Hhit) as (th & Hth & Hget & _).
  rewrite Hth.
  destruct (bool_decide (_ ≠ _)); destruct (bool_decide (hit > _));
    try reflexivity;
    run_m; rewrite Hget; unfold create_issue; run_m;
    by destruct (gh_succeeds env _).
Qed.

Lemma main_run env w :
  main env w =
  match foldM (main_loop_body (utcnow env)) (loaded w) RULES env w with
  | (w1, Ok state) => ({| state_file := Some state; calls := calls w1 |}, Ok tt)
  | (w1, Raise e) => (w1, Raise e)
  end.
Proof.
  unfold main. run_m. unfold load_state. fold (loaded w). run_m.
  by destruct (foldM _ _ _ _ _) as [w1 [state|e]].
Qed.

(** The calls of one evaluation name the symbol evaluated, and the state
    file is not touched. *)
Lemma main_loop_body_frame now state symbol levels env w w' r :
  main_loop_body now state (symbol, levels) env w = (w', r) ->
  state_file w' = state_file w /\
  exists new, calls w' = calls w ++ new /\
              Forall (fun ev => event_symbol ev = symbol) new.
Proof.
  rewrite main_loop_body_run. cbn zeta.
  destruct (fetched env symbol) as [snap|e].
  - destruct (owed _ _ _ _) as [issue|] eqn:Howed.
    + assert (i_symbol issue = symbol) as Hsym.
      { unfold owed in Howed. repeat case_match; naive_solver. }
      intros Hrun. assert (w' = log_call (GhIssueCreate issue)
                                  (log_call (Download symbol) w)) as ->
        by (destruct (gh_succeeds env issue); congruence).
      split; [done|]. exists [Download symbol; GhIssueCreate issue].
      split; [cbn; by rewrite <- app_assoc|]. by repeat constructor.
    + intros [= <- _]. split; [done|]. exists [Download symbol].
      split; [done|]. by repeat constructor.
  - intros [= <- _]. split; [done|]. exists [Download symbol].
    split; [done|]. by repeat constructor.
Qed.

Lemma foldM_frame now rules state env w w' r :
  foldM (main_loop_body now) state rules env w = (w', r) ->
  state_file w' = state_file w /\
  exists new, calls w' = calls w ++ new /\
              Forall (fun ev => event_symbol ev ∈ rules.*1) new.
Proof.
  revert state w. induction rules as [|[symbol levels] rules IH];
    intros state w; cbn [foldM].
  - intros [= <- _]. split; [done|]. exists []. by rewrite app_nil_r.
  - rewrite bind_run.
    destruct (main_loop_body _ _ _ _ _) as [w1 [state1|e]] eqn:Hbody;
      apply main_loop_body_frame in Hbody as (Hfile & new1 & Hcalls & Hnew1).
    + intros Hrest. apply IH in Hrest as (Hfile' & new2 & Hcalls' & Hnew2).
      split; [congruence|]. exists (new1 ++ new2).
      split; [by rewrite Hcalls', Hcalls, app_assoc|].
      apply Forall_app. split.
      * eapply Forall_impl; [exact Hnew1|]. intros ev ->.
        rewrite fmap_cons. apply list_elem_of_here.
      * eapply Forall_impl; [exact Hnew2|]. intros ev ?.
        rewrite fmap_cons. by apply list_elem_of_further.
    + intros [= <- _]. split; [done|]. exists new1. split; [done|].
      eapply Forall_impl; [exact Hnew1|]. intros ev ->.
      rewrite fmap_cons. apply list_elem_of_here.
Qed.

(** A run that raises leaves the state file as it was. *)
Lemma main_raise_file env w w' e :
  main env w = (w', Raise e) -> state_file w' = state_file w.
Proof.
  rewrite main_run.
  destruct (foldM _ _ _ _ _) as [w1 [state|e1]] eqn:Hloop; [done|].
  intros [= <- _]. by apply foldM_frame in Hloop as [? _].
Qed.

(** ** Evaluations that return *)

Lemma owed_Some symbol levels ss snap issue :
  owed symbol levels ss snap = Some issue ->
  i_symbol issue = symbol /\ i_snap issue = snap /\
  decide_level (Snapshot.drawdown snap) levels = Some (i_level issue) /\
  i_level issue > effective_level ss snap /\
  levels !! Z.to_nat (i_level issue - 1) = Some (i_threshold issue).
Proof.
  unfold owed. destruct (decide_level _ _) as [hit|]; [|done].
  case_bool_decide; [|done].
  destruct (levels !! _) as [th|] eqn:Hth; [|done].
  by intros [= <-].
Qed.

Lemma owed_None symbol levels ss snap :
  owed symbol levels ss snap = None ->
  decide_level (Snapshot.drawdown snap) levels = None \/
  exists hit, decide_level (Snapshot.drawdown snap) levels = Some hit /\
              hit <= effective_level ss snap.
Proof.
  unfold owed. destruct (decide_level _ _) as [hit|] eqn:Hhit; [|by left].
  destruct (decide_level_getitem _ _ _ Hhit) as (th & -> & _).
  case_bool_decide; [done|]. intros _. right. exists hit. split; [done|lia].
Qed.

Lemma main_loop_body_Ok now state symbol levels env w w' state' :
  main_loop_body now state (symbol, levels) env w = (w', Ok state') ->
  exists snap,
    fetched env symbol = Ok snap /\
    let alert := owed symbol levels (entry state symbol) snap in
    state' = set_symbol symbol
               (next_entry now (entry state symbol) snap alert) state /\
    state_file w' = state_file w /\
    calls w' = calls w ++ Download symbol :: (GhIssueCreate <$> option_list alert) /\
    forall issue, alert = Some issue -> gh_succeeds env issue = true.
Proof.
  rewrite main_loop_body_run. cbn zeta.
  destruct (fetched env symbol) as [snap|e]; [|done].
  intros Hrun. exists snap. split; [done|]. cbn zeta.
  destruct (owed _ _ _ _) as [issue|].
  - destruct (gh_succeeds env issue) eqn:Hgh; [|done].
    injection Hrun as <- <-. cbn. rewrite <- app_assoc.
    repeat split; try done. by intros ? [= <-].
  - injection Hrun as <- <-. done.
Qed.

Lemma alerts_for_app symbol evs1 evs2 :
  alerts_for symbol (evs1 ++ evs2) =
  alerts_for symbol evs1 ++ alerts_for symbol evs2.
Proof. apply omap_app. Qed.

Lemma alerts_for_other symbol evs :
  Forall (fun ev => event_symbol ev ≠ symbol) evs -> alerts_for symbol evs = [].
Proof.
  induction 1 as [|ev evs Hev _ IH]; [done|].
  change (ev :: evs) with ([ev] ++ evs). rewrite alerts_for_app, IH.
  destruct ev as [|issue]; [done|]. unfold alerts_for. cbn.
  by rewrite bool_decide_false.
Qed.

Lemma alerts_for_evaluation symbol levels ss snap s :
  alerts_for s (Download symbol ::
                (GhIssueCreate <$> option_list (owed symbol levels ss snap))) =
  if bool_decide (symbol = s) then option_list (owed symbol levels ss snap)
  else [].
Proof.
  destruct (owed _ _ _ _) as [issue|] eqn:Howed; cbn.
  - apply owed_Some in Howed as (-> & _). unfold alerts_for. cbn.
    by case_bool_decide.
  - by case_bool_decide.
Qed.

Lemma new_calls_app w w' new :
  calls w' = calls w ++ new -> new_calls w w' = new.
Proof. intros H. unfold new_calls. rewrite H. apply drop_app_length. Qed.

Lemma entry_set_symbol_ne state symbol ss s :
  symbol ≠ s -> entry (set_symbol symbol ss state) s = entry state s.
Proof. intros H. unfold entry, set_symbol. cbn. by rewrite lookup_insert_ne. Qed.

(** A loop that returns evaluated each symbol once, against the entry the
    loop started with. *)
Lemma foldM_Ok now rules state env w w' state' :
  NoDup rules.*1 ->
  foldM (main_loop_body now) state rules env w = (w', Ok state') ->
  version state' = version state /\
  (forall s, s ∉ rules.*1 -> symbols state' !! s = symbols state !! s) /\
  forall s levels, (s, levels) ∈ rules ->
    exists snap, fetched env s = Ok snap /\
      let alert := owed s levels (entry state s) snap in
      symbols state' !! s = Some (next_entry now (entry state s) snap alert) /\
      alerts_for s (new_calls w w') = option_list alert /\
      forall issue, alert = Some issue -> gh_succeeds env issue = true.
Proof.
  revert state w. induction rules as [|[s0 l0] rules IH]; intros state w Hnd;
    cbn [foldM].
  - intros [= <- <-]. split; [done|]. split; [done|]. intros s l Hin.
    by apply elem_of_nil in Hin.
  - rewrite bind_run. rewrite fmap_cons in Hnd. cbn [fst] in Hnd.
    apply NoDup_cons in Hnd as [Hs0 Hnd].
    destruct (main_loop_body _ _ _ _ _) as [w1 [state1|e]] eqn:Hbody; [|done].
    intros Hrest. pose proof Hrest as Hframe.
    apply foldM_frame in Hframe as (_ & new2 & Hcalls2 & Hnew2).
    apply (IH _ _ Hnd) in Hrest as (Hver & Hother & Hrules).
    apply main_loop_body_Ok in Hbody
      as (snap0 & Hfetch0 & -> & _ & Hcalls1 & Hgh0).
    assert (new_calls w w' =
            (Download s0 :: (GhIssueCreate <$>
               option_list (owed s0 l0 (entry state s0) snap0))) ++ new2)
      as Hnew.
    { apply new_calls_app. by rewrite Hcalls2, Hcalls1, <- app_assoc. }
    split; [done|]. split.
    + intros s Hs. rewrite fmap_cons, not_elem_of_cons in Hs.
      destruct Hs as [Hne Hs]. cbn [fst] in Hne. rewrite Hother by done. cbn.
      by rewrite lookup_insert_ne.
    + intros s levels Hin. apply elem_of_cons in Hin as [[= -> ->]|Hin].
      * exists snap0. split; [done|]. cbn zeta. split.
        { rewrite (Hother _ Hs0). cbn. by rewrite lookup_insert_eq. }
        split; [|done].
        rewrite Hnew, alerts_for_app, alerts_for_evaluation.
        rewrite bool_decide_true by done.
        rewrite (alerts_for_other s0 new2), app_nil_r; [done|].
        eapply Forall_impl; [exact Hnew2|]. intros ev Hev Heq.
        cbn beta in Hev. by rewrite Heq in Hev.
      * assert (s0 ≠ s) as Hne.
        { intros ->. apply Hs0. apply list_elem_of_fmap. by exists (s, levels). }
        destruct (Hrules _ _ Hin) as (snap & Hfetch & Hentry & Halerts & Hgh).
        rewrite entry_set_symbol_ne in Hentry, Halerts, Hgh by done.
        exists snap. split; [done|]. cbn zeta. split; [done|]. split; [|done].
        rewrite Hnew, alerts_for_app, alerts_for_evaluation.
        rewrite bool_decide_false by done. cbn [app].
        rewrite <- Halerts. f_equal. symmetry. by apply new_calls_app.
Qed.

Lemma RULES_NoDup : NoDup RULES.*1.
Proof. apply (bool_decide_unpack _). by vm_compute. Qed.

Lemma owed_fires symbol levels ss snap h :
  decide_level (Snapshot.drawdown snap) levels = Some h ->
  h > effective_level ss snap ->
  exists th, levels !! Z.to_nat (h - 1) = Some th /\
             owed symbol levels ss snap = Some (alert symbol h snap th).
Proof.
  intros Hhit Hgt. destruct (decide_level_getitem _ _ _ Hhit) as (th & Hth & _).
  exists th. split; [done|]. unfold owed.
  by rewrite Hhit, bool_decide_true, Hth.
Qed.

Lemma stored_level_next now state symbol ss snap a :
  stored_level (set_symbol symbol (next_entry now ss snap a) state) symbol =
  match a with
  | Some issue => Some (i_level issue)
  | None => SymState.notified_level ss
  end.
Proof.
  unfold stored_level, set_symbol. cbn. rewrite lookup_insert_eq. cbn.
  by destruct a.
Qed.

Lemma stored_level_entry state symbol :
  SymState.notified_level (entry state symbol) = stored_level state symbol.
Proof.
  unfold entry, stored_level. by destruct (symbols state !! symbol).
Qed.

Lemma stored_peak_date_entry state symbol :
  SymState.peak_date (entry state symbol) = stored_peak_date state symbol.
Proof.
  unfold entry, stored_peak_date. by destruct (symbols state !! symbol).
Qed.

(** ** The alert decision *)

(** C5. A hit level h above the stored notified level (0 when none is
    stored): the evaluation makes exactly one gh call, for level h with the
    ladder's threshold at position h, and none for the levels in between. *)
Theorem escalation_single_alert now state symbol levels env w snap h :
  fetched env symbol = Ok snap ->
  decide_level (Snapshot.drawdown snap) levels = Some h ->
  h > or_zero (stored_level state symbol) ->
  exists th,
    levels !! Z.to_nat (h - 1) = Some th /\
    let run := main_loop_body now state (symbol, levels) env w in
    calls run.1 = calls w ++ [Download symbol; GhIssueCreate (alert symbol h snap th)] /\
    alerts_for symbol (new_calls w run.1) = [alert symbol h snap th].
Proof.
  intros Hfetch Hhit Hgt.
  destruct (decide_level_getitem _ _ _ Hhit) as (_ & _ & _ & Hh).
  destruct (owed_fires symbol levels (entry state symbol) snap h Hhit)
    as (th & Hth & Howed).
  { unfold effective_level. rewrite stored_level_entry.
    case_bool_decide; lia. }
  exists th. split; [done|]. cbn zeta.
  rewrite main_loop_body_run, Hfetch. cbn zeta. rewrite Howed.
  assert (forall w', calls w' = calls w ++
            [Download symbol; GhIssueCreate (alert symbol h snap th)] ->
          alerts_for symbol (new_calls w w') = [alert symbol h snap th])
    as Halerts.
  { intros w' Hw'. rewrite (new_calls_app _ _ _ Hw'). unfold alerts_for. cbn.
    by rewrite bool_decide_true. }
  destruct (gh_succeeds env _); cbn [fst];
    (split; [|apply Halerts]); cbn; by rewrite <- app_assoc.
Qed.

Lemma owed_silent symbol levels ss snap :
  (decide_level (Snapshot.drawdown snap) levels = None \/
   exists h, decide_level (Snapshot.drawdown snap) levels = Some h /\
             h <= effective_level ss snap) ->
  owed symbol levels ss snap = None.
Proof.
  unfold owed. intros [->|(h & -> & Hle)]; [done|].
  by rewrite bool_decide_false by lia.
Qed.

Lemma next_entry_mirrors now ss snap a : mirrors now snap (next_entry now ss snap a).
Proof. by repeat split. Qed.

Lemma main_loop_body_silent now state symbol levels env w snap :
  fetched env symbol = Ok snap ->
  owed symbol levels (entry state symbol) snap = None ->
  main_loop_body now state (symbol, levels) env w =
  (log_call (Download symbol) w,
   Ok (set_symbol symbol (next_entry now (entry state symbol) snap None) state)).
Proof.
  intros Hfetch Howed. rewrite main_loop_body_run, Hfetch. cbn zeta.
  by rewrite Howed.
Qed.

(** C4. After an evaluation that returned, a second evaluation of the
    symbol on a snapshot with the same peak date and the same drawdown
    returns having made no gh call, and leaves the entry's notified_level
    as the first evaluation set it. *)
Theorem second_evaluation_silent now1 now2 state symbol levels env1 env2 w w1
    state1 snap1 snap2 :
  fetched env1 symbol = Ok snap1 ->
  fetched env2 symbol = Ok snap2 ->
  Snapshot.peak_date snap2 = Snapshot.peak_date snap1 ->
  Snapshot.drawdown snap2 = Snapshot.drawdown snap1 ->
  main_loop_body now1 state (symbol, levels) env1 w = (w1, Ok state1) ->
  exists state2,
    main_loop_body now2 state1 (symbol, levels) env2 w1 =
      (log_call (Download symbol) w1, Ok state2) /\
    stored_level state2 symbol = stored_level state1 symbol.
Proof.
  intros Hfetch1 Hfetch2 Hpeak Hdd Hrun.
  apply main_loop_body_Ok in Hrun as (snap & Hfetch & Hstate1 & _).
  assert (snap = snap1) as -> by congruence. cbn zeta in Hstate1.
  set (ss := entry state symbol) in *.
  set (a := owed symbol levels ss snap1) in *.
  assert (entry state1 symbol = next_entry now1 ss snap1 a) as Hentry.
  { rewrite Hstate1. unfold entry at 1. cbn. by rewrite lookup_insert_eq. }
  assert (owed symbol levels (entry state1 symbol) snap2 = None) as Hsilent.
  { apply owed_silent. rewrite Hdd, Hentry.
    unfold effective_level at 1. cbn [next_entry SymState.update
      SymState.peak_date SymState.notified_level].
    rewrite Hpeak, bool_decide_false by (intros H; by apply H).
    destruct a as [issue|] eqn:Ha.
    - apply owed_Some in Ha as (_ & _ & Hhit & _).
      right. exists (i_level issue). split; [done|]. cbn.
      destruct (i_level issue =? 0) eqn:E; lia.
    - apply owed_None in Ha as [Hnone|(h & Hhit & Hle)]; [by left|].
      right. exists h. split; [done|].
      destruct (decide_level_getitem _ _ _ Hhit) as (_ & _ & _ & Hh).
      unfold effective_level in Hle. case_bool_decide; [lia|done]. }
  eexists. split; [by apply main_loop_body_silent|].
  by rewrite stored_level_next, stored_level_entry.
Qed.

(** ** Whole runs *)

Lemma file_entry_loaded w symbol :
  symbols (loaded w) !! symbol = file_entry w symbol.
Proof. unfold loaded, file_entry. by destruct (state_file w). Qed.

Lemma file_level_loaded w symbol :
  SymState.notified_level (entry (loaded w) symbol) = file_level w symbol.
Proof.
  unfold entry, file_level. rewrite file_entry_loaded.
  by destruct (file_entry w symbol).
Qed.

Lemma file_peak_date_loaded w symbol :
  SymState.peak_date (entry (loaded w) symbol) = file_peak_date w symbol.
Proof.
  unfold entry, file_peak_date. rewrite file_entry_loaded.
  by destruct (file_entry w symbol).
Qed.

(** A run that returns has evaluated every symbol of RULES against the
    entry found in the file, and has written the outcome. *)
Lemma main_Ok env w w' :
  main env w = (w', Ok tt) ->
  (forall s, s ∉ RULES.*1 -> file_entry w' s = file_entry w s) /\
  forall s levels, (s, levels) ∈ RULES ->
    exists snap, fetched env s = Ok snap /\
      let ss := entry (loaded w) s in
      let a := owed s levels ss snap in
      file_entry w' s = Some (next_entry (utcnow env) ss snap a) /\
      alerts_for s (new_calls w w') = option_list a /\
      forall issue, a = Some issue -> gh_succeeds env issue = true.
Proof.
  rewrite main_run.
  destruct (foldM _ _ _ _ _) as [w1 [state'|e]] eqn:Hloop; [|done].
  intros [= <-].
  apply (foldM_Ok _ _ _ _ _ _ _ RULES_NoDup) in Hloop as (_ & Hother & Hrules).
  split.
  - intros s Hs. unfold file_entry at 1. cbn. rewrite Hother by done.
    apply file_entry_loaded.
  - intros s levels Hin. destruct (Hrules _ _ Hin) as (snap & ? & ? & ? & ?).
    by exists snap.
Qed.

Lemma main_calls env w :
  exists new, calls (main env w).1 = calls w ++ new /\
              Forall (fun ev => event_symbol ev ∈ RULES.*1) new.
Proof.
  rewrite main_run.
  destruct (foldM _ _ _ _ _) as [w1 [state'|e]] eqn:Hloop;
    by apply foldM_frame in Hloop as (_ & new & ? & ?); exists new.
Qed.

(** C6. Over a run, the notified_level in the state file changes for a
    symbol only when an issue was filed for that symbol in the run, and
    then to the level of that issue. In a run that returns, a symbol whose
    snapshot has a peak date other than the stored one and for which no
    issue was filed gets the new peak date written while its
    notified_level stays what it was. *)
Theorem notified_level_changes_with_alert env w :
  let w' := (main env w).1 in
  (forall symbol,
      file_level w' symbol ≠ file_level w symbol ->
      exists issue, issue ∈ alerts_for symbol (new_calls w w') /\
                    file_level w' symbol = Some (i_level issue))
  /\ ((main env w).2 = Ok tt ->
      forall symbol levels snap,
        (symbol, levels) ∈ RULES ->
        fetched env symbol = Ok snap ->
        file_peak_date w symbol ≠ Some (Snapshot.peak_date snap) ->
        alerts_for symbol (new_calls w w') = [] ->
        file_peak_date w' symbol = Some (Snapshot.peak_date snap) /\
        file_level w' symbol = file_level w symbol).
Proof.
  destruct (main env w) as [w' [[]|e]] eqn:Hmain; cbn [fst snd].
  - destruct (main_Ok _ _ _ Hmain) as [Hother Hrules]. split.
    + intros symbol Hchanged.
      destruct (decide (symbol ∈ RULES.*1)) as [Hin|Hout].
      * apply list_elem_of_fmap in Hin as ([s levels] & -> & Hin). cbn in *.
        destruct (Hrules _ _ Hin) as (snap & _ & Hentry & Halerts & _).
        cbn zeta in *. unfold file_level at 1 in Hchanged. unfold file_level at 1.
        rewrite Hentry in *. cbn in *. rewrite Halerts.
        destruct (owed _ _ _ _) as [issue|].
        -- exists issue. split; [apply list_elem_of_here|done].
        -- by rewrite file_level_loaded in Hchanged.
      * unfold file_level in Hchanged. by rewrite (Hother _ Hout) in Hchanged.
    + intros _ symbol levels snap Hin Hfetch Hpeak Hnone.
      destruct (Hrules _ _ Hin) as (snap' & Hfetch' & Hentry & Halerts & _).
      assert (snap' = snap) as -> by congruence. cbn zeta in *.
      unfold file_peak_date at 1, file_level at 1. rewrite Hentry. cbn.
      split; [done|]. rewrite Hnone in Halerts.
      destruct (owed _ _ _ _); [done|]. apply file_level_loaded.
  - split; [|done]. intros symbol Hchanged. exfalso. apply Hchanged.
    unfold file_level, file_entry. by rewrite (main_raise_file _ _ _ _ Hmain).
Qed.

Lemma foldM_app {A B} (f : B -> A -> M B) b l1 l2 env w :
  foldM f b (l1 ++ l2) env w =
  match foldM f b l1 env w with
  | (w1, Ok b1) => foldM f b1 l2 env w1
  | (w1, Raise e) => (w1, Raise e)
  end.
Proof.
  revert b w. induction l1 as [|a l1 IH]; intros b w; cbn [foldM app].
  - done.
  - rewrite !bind_run. destruct (f b a env w) as [w1 [b1|e]]; [|done].
    apply IH.
Qed.

(** C8. The symbols before one have been evaluated; for that one,
    fetch_snapshot raises, or the gh call for the issue it owes fails.
    Then the run raises that exception, the state file is what it was
    before the run, and no call was made for a symbol further down
    RULES. *)
Theorem failure_aborts_run env w pre symbol levels post w1 state1 e :
  RULES = pre ++ (symbol, levels) :: post ->
  foldM (main_loop_body (utcnow env)) (loaded w) pre env w = (w1, Ok state1) ->
  (fetched env symbol = Raise e
   \/ exists snap issue,
        fetched env symbol = Ok snap /\
        owed symbol levels (entry state1 symbol) snap = Some issue /\
        gh_succeeds env issue = false /\ e = CalledProcessError) ->
  exists w',
    main env w = (w', Raise e) /\
    state_file w' = state_file w /\
    Forall (fun ev => event_symbol ev ∉ post.*1) (new_calls w w').
Proof.
  intros HRULES Hpre Hfail.
  assert (exists w', main_loop_body (utcnow env) state1 (symbol, levels) env w1
                     = (w', Raise e)) as [w' Hbody].
  { rewrite main_loop_body_run. cbn zeta.
    destruct Hfail as [->|(snap & issue & -> & -> & -> & ->)]; eauto. }
  exists w'.
  assert (main env w = (w', Raise e)) as Hmain.
  { rewrite main_run, HRULES, foldM_app, Hpre. cbn [foldM].
    by rewrite bind_run, Hbody. }
  split; [done|]. split; [by eapply main_raise_file|].
  pose proof RULES_NoDup as Hnd. rewrite HRULES, fmap_app, fmap_cons in Hnd.
  apply NoDup_app in Hnd as (_ & Hdisj & Hnd).
  apply NoDup_cons in Hnd as [Hsym _]. cbn [fst] in *.
  apply foldM_frame in Hpre as (_ & new1 & Hcalls1 & Hnew1).
  apply main_loop_body_frame in Hbody as (_ & new2 & Hcalls2 & Hnew2).
  rewrite (new_calls_app w w' (new1 ++ new2))
    by (by rewrite Hcalls2, Hcalls1, app_assoc).
  apply Forall_app. split.
  - eapply Forall_impl; [exact Hnew1|]. intros ev Hev Hpost. cbn beta in Hev.
    apply (Hdisj _ Hev). by apply elem_of_cons; right.
  - eapply Forall_impl; [exact Hnew2|]. intros ev Hev. cbn beta in Hev.
    by rewrite Hev.
Qed.

(** ** Sequences of runs *)

Lemma or_zero_Some n : or_zero (Some n) = n.
Proof. cbn. destruct (Z.eqb_spec n 0); lia. Qed.

Lemma alert_history_unconfigured symbol prev epoch envs w :
  symbol ∉ RULES.*1 -> alert_history symbol prev epoch envs w = [].
Proof.
  intros Hout. revert prev epoch w.
  induction envs as [|env envs IH]; intros prev epoch w; [done|].
  cbn [alert_history]. cbn zeta. rewrite IH, app_nil_r.
  destruct (main_calls env w) as (new & Hcalls & Hnew).
  rewrite (new_calls_app _ _ _ Hcalls), alerts_for_other; [done|].
  eapply Forall_impl; [exact Hnew|]. intros ev Hev Heq. cbn beta in Hev.
  by rewrite Heq in Hev.
Qed.

(** Within the epoch a sequence of completed runs starts in, every issue
    is for a level above the one on file; later epochs have later numbers;
    and no (epoch, level) pair comes twice. *)
Lemma alert_history_increasing symbol levels envs w epoch :
  (symbol, levels) ∈ RULES ->
  all_complete envs w ->
  let history :=
    alert_history symbol (file_peak_date w symbol) epoch envs w in
  Forall (fun p => (epoch <= p.1)%nat /\
                   (p.1 = epoch ->
                    i_level p.2 > or_zero (file_level w symbol))) history
  /\ NoDup (epoch_levels history).
Proof.
  intros Hin. revert w epoch.
  induction envs as [|env envs IH]; intros w epoch Hall history.
  { split; [constructor|]. subst history. cbn. constructor. }
  destruct Hall as [Hok Hall]. subst history. cbn [alert_history]. cbn zeta.
  destruct (main env w) as [w' r] eqn:Hmain. cbn [fst snd] in *. subst r.
  destruct (main_Ok _ _ _ Hmain) as [_ Hrules].
  destruct (Hrules _ _ Hin) as (snap & -> & Hentry & -> & _).
  cbn zeta in Hentry.
  set (ss := entry (loaded w) symbol) in *.
  set (a := owed symbol levels ss snap) in *.
  set (epoch' := if bool_decide (_ ≠ _) then S epoch else epoch).
  assert (file_peak_date w' symbol = Some (Snapshot.peak_date snap)) as Hpeak'.
  { unfold file_peak_date. by rewrite Hentry. }
  assert (file_level w' symbol =
          match a with
          | Some issue => Some (i_level issue)
          | None => file_level w symbol
          end) as Hlevel'.
  { unfold file_level at 1. rewrite Hentry. cbn.
    destruct a; [done|]. apply file_level_loaded. }
  rewrite <- Hpeak'.
  destruct (IH w' epoch' Hall) as [Hrest Hnd]. rewrite Hpeak' in *.
  set (rest := alert_history symbol _ epoch' envs w') in *.
  assert (epoch <= epoch')%nat as Hle by (subst epoch'; case_bool_decide; lia).
  assert (epoch' = epoch ->
          effective_level ss snap = or_zero (file_level w symbol)) as Hsame.
  { subst epoch'. unfold effective_level, ss.
    rewrite file_peak_date_loaded, file_level_loaded.
    case_bool_decide as Hp; [lia|]. intros _.
    by rewrite bool_decide_false by congruence. }
  assert (forall issue, a = Some issue ->
                        i_level issue > effective_level ss snap) as Habove.
  { intros issue Ha. by apply owed_Some in Ha as (_ & _ & _ & ? & _). }
  split.
  - apply Forall_app. split.
    + destruct a as [issue|]; [|constructor]. repeat constructor; cbn; [done|].
      intros He. rewrite <- (Hsame He). by apply Habove.
    + eapply Forall_impl; [exact Hrest|]. intros [e' i] [He' Hlev]. cbn in *.
      split; [lia|]. intros ->. assert (epoch' = epoch) as He by lia.
      specialize (Hlev (eq_sym He)). rewrite Hlevel' in Hlev.
      destruct a as [issue|]; [|done]. rewrite or_zero_Some in Hlev.
      specialize (Habove issue eq_refl). rewrite (Hsame He) in Habove. lia.
  - unfold epoch_levels in *. rewrite fmap_app. apply NoDup_app.
    split; [|split; [|done]].
    + destruct a; cbn; repeat constructor; set_solver.
    + intros [e l] Hhead Htail.
      destruct a as [issue|]; cbn in Hhead; [|by apply elem_of_nil in Hhead].
      apply list_elem_of_singleton in Hhead as [= -> ->].
      apply list_elem_of_fmap in Htail as ([e' i] & [= He Hl] & Hi).
      rewrite Forall_forall in Hrest. destruct (Hrest _ Hi) as [_ Hlev].
      cbn in *. specialize (Hlev (eq_sym He)).
      rewrite Hlevel', or_zero_Some in Hlev. lia.
Qed.

(** C1, as stated, fails in two ways. A run that files an issue for TQQQ
    and then raises on SOXL saves nothing, so the next run, on the same
    snapshot, files the same issue again, in the same epoch and for the
    same level. And with level 2 on file for the peak of 2024-01-10, a run
    that sees a new high (peak date 2024-03-01, drawdown 0) returns and
    writes the new peak date beside the old level; the next run, at the
    same new peak date and 35% down, reaches level 1 under the new peak
    and files nothing for it. *)
Lemma alerts_repeated_and_missed :
  ~ (forall symbol envs w,
        NoDup (epoch_levels
                 (alert_history symbol (file_peak_date w symbol) 0 envs w)))
  /\ (let w := world_with (stored_entry "2024-01-10" 2) in
      let env1 := env_uniform (after_peak 1) "t1" in
      let env2 := env_uniform (after_peak 0.65) "t2" in
      let w1 := (main env1 w).1 in
      let snap2 :=
        Snapshot.Make "2024-04-30" 0.65 "2024-03-01" 1 (0.65 / 1 - 1) in
      (main env1 w).2 = Ok tt /\
      (main env2 w1).2 = Ok tt /\
      file_peak_date w "TQQQ" = Some "2024-01-10" /\
      file_peak_date w1 "TQQQ" = Some "2024-03-01" /\
      file_level w1 "TQQQ" = Some 2 /\
      fetched env2 "TQQQ" = Ok snap2 /\
      decide_level (Snapshot.drawdown snap2) TQQQ_levels = Some 1 /\
      alerts_for "TQQQ" (new_calls w1 (main env2 w1).1) = [] /\
      file_level (main env2 w1).1 "TQQQ" = Some 2).
Proof.
  split.
  - intros H.
    specialize (H "TQQQ" [env_TQQQ_only 0.65 "t1"; env_TQQQ_only 0.65 "t2"]
                  fresh_world).
    vm_compute in H. apply NoDup_cons in H as [H _]. apply H. left.
  - vm_compute. repeat split.
Qed.

(** C1, amended. Over any sequence of runs that all return, no two issues
    filed for a symbol share epoch and level. And in a run that returns,
    a snapshot whose peak date is not the stored one is compared with
    level 0: the level decide_level gives is alerted, whatever level is
    on file. *)
Theorem one_alert_per_epoch_and_level :
  (forall symbol envs w,
      all_complete envs w ->
      NoDup (epoch_levels
               (alert_history symbol (file_peak_date w symbol) 0 envs w)))
  /\ (forall env w symbol levels snap h,
        (symbol, levels) ∈ RULES ->
        (main env w).2 = Ok tt ->
        fetched env symbol = Ok snap ->
        file_peak_date w symbol ≠ Some (Snapshot.peak_date snap) ->
        decide_level (Snapshot.drawdown snap) levels = Some h ->
        effective_level (entry (loaded w) symbol) snap = 0 /\
        exists th,
          levels !! Z.to_nat (h - 1) = Some th /\
          alerts_for symbol (new_calls w (main env w).1) =
            [alert symbol h snap th]).
Proof.
  split.
  - intros symbol envs w Hall.
    destruct (decide (symbol ∈ RULES.*1)) as [Hin|Hout].
    + apply list_elem_of_fmap in Hin as ([s levels] & -> & Hin).
      by apply (alert_history_increasing s levels envs w 0 Hin Hall).
    + rewrite alert_history_unconfigured by done. constructor.
  - intros env w symbol levels snap h Hin Hok Hfetch Hpeak Hhit.
    assert (effective_level (entry (loaded w) symbol) snap = 0) as Heff.
    { unfold effective_level. rewrite file_peak_date_loaded.
      by rewrite bool_decide_true. }
    split; [done|].
    destruct (decide_level_getitem _ _ _ Hhit) as (_ & _ & _ & Hh).
    destruct (owed_fires symbol levels (entry (loaded w) symbol) snap h Hhit)
      as (th & Hth & Howed); [lia|].
    exists th. split; [done|].
    destruct (main env w) as [w' r] eqn:Hmain. cbn [fst snd] in *. subst r.
    destruct (main_Ok _ _ _ Hmain) as [_ Hrules].
    destruct (Hrules _ _ Hin) as (snap' & Hfetch' & _ & Halerts & _).
    assert (snap' = snap) as -> by congruence. cbn zeta in Halerts.
    by rewrite Halerts, Howed.
Qed.

(** ** fetch_snapshot *)

Lemma fetched_unfold env symbol :
  fetched env symbol =
  match yf_download env symbol with
  | None => Raise (RuntimeError (FailedToFetch symbol))
  | Some df =>
      if df_empty df then Raise (RuntimeError (FailedToFetch symbol))
      else match df_column "Close" df with
           | None => Raise (RuntimeError (CloseColumnNotFound symbol))
           | Some col =>
               if bool_decide (length (dropna col) < 60)%nat
               then Raise (RuntimeError
                             (NotEnoughData symbol (length (dropna col))))
               else
                 match series_idxmax (window col), iloc_minus1 (window col) with
                 | Ok peak, Ok last =>
                     match truediv last.2 (series_max (window col)) with
                     | Ok q =>
                         Ok (Snapshot.Make (isoformat last.1) last.2
                               (isoformat peak) (series_max (window col))
                               (q - 1.0)%float)
                     | Raise e => Raise e
                     end
                 | Raise e, _ | Ok _, Raise e => Raise e
                 end
           end
  end.
Proof.
  unfold fetched, fetch_snapshot, window. run_m.
  destruct (yf_download env symbol) as [df|]; [|done].
  destruct (df_empty df); [done|].
  destruct (df_column "Close" df) as [col|]; [|done].
  case_bool_decide; [done|]. run_m.
  destruct (series_idxmax _); [|done]. run_m.
  destruct (iloc_minus1 _); [|done]. run_m.
  destruct (truediv _ _); done.
Qed.

Lemma window_length col :
  length (window col) = (length (dropna col) `min` LOOKBACK_TRADING_DAYS)%nat.
Proof. unfold window, iloc_last. rewrite length_drop. lia. Qed.

Lemma window_sublist col : window col `sublist_of` dropna col.
Proof. apply sublist_drop. Qed.

Lemma dropna_not_nan col q : q ∈ dropna col -> is_nan q.2 = false.
Proof. unfold dropna. rewrite list_elem_of_filter. tauto. Qed.

(** The scan for the greatest row: the rows before the one it settles on
    are strictly smaller, the rows after it are not greater. *)
Lemma greatest_scan rest : forall a best b,
  Forall (fun q => PrimFloat.ltb q.2 best.2 = true) a ->
  Forall (fun q => PrimFloat.leb q.2 best.2 = true) b ->
  Forall (fun q : date * float => is_nan q.2 = false) (best :: rest) ->
  let p := foldl (fun best q => if PrimFloat.ltb best.2 q.2 then q else best)
                 best rest in
  exists a' b',
    a ++ best :: b ++ rest = a' ++ p :: b' /\
    Forall (fun q => PrimFloat.ltb q.2 p.2 = true) a' /\
    Forall (fun q => PrimFloat.leb q.2 p.2 = true) b'.
Proof.
  induction rest as [|q rest IH]; intros a best b Ha Hb Hnan p.
  - exists a, b. by rewrite app_nil_r.
  - subst p. cbn [foldl].
    apply Forall_cons in Hnan as [Hbest Hnan].
    apply Forall_cons in Hnan as [Hq Hnan].
    destruct (PrimFloat.ltb best.2 q.2) eqn:Hlt.
    + destruct (IH (a ++ best :: b) q []) as (a' & b' & Heq & Ha' & Hb').
      * apply Forall_app. split; [|apply Forall_cons; split; [done|]].
        -- eapply Forall_impl; [exact Ha|]. intros x Hx. cbn beta in *.
           eapply ltb_leb_trans; [exact Hx|]. by apply ltb_leb.
        -- eapply Forall_impl; [exact Hb|]. intros x Hx. cbn beta in *.
           by eapply leb_ltb_trans.
      * constructor.
      * by constructor.
      * exists a', b'. split; [|done]. rewrite <- Heq.
        by rewrite <- !app_assoc.
    + destruct (IH a best (b ++ [q])) as (a' & b' & Heq & Ha' & Hb').
      * done.
      * apply Forall_app. split; [done|]. repeat constructor.
        by apply not_ltb_leb.
      * by constructor.
      * exists a', b'. split; [|done]. rewrite <- Heq.
        by rewrite <- !app_assoc.
Qed.

Lemma greatest_spec s p :
  Forall (fun q : date * float => is_nan q.2 = false) s ->
  greatest s = Some p ->
  exists a b,
    s = a ++ p :: b /\
    Forall (fun q => PrimFloat.ltb q.2 p.2 = true) a /\
    Forall (fun q => PrimFloat.leb q.2 p.2 = true) b.
Proof.
  destruct s as [|q rest]; [done|]. intros Hnan [= <-].
  by apply (greatest_scan rest [] q []).
Qed.

Lemma window_nonempty col :
  (60 <= length (dropna col))%nat ->
  exists p l, greatest (window col) = Some p /\ last (window col) = Some l.
Proof.
  intros Hlen. pose proof (window_length col) as Hw.
  unfold LOOKBACK_TRADING_DAYS in Hw.
  destruct (window col) as [|q rest] eqn:E; [cbn in Hw; lia|].
  destruct (last (q :: rest)) as [l|] eqn:El.
  - by eexists _, l.
  - by apply last_None in El.
Qed.

(** The claim C9 says that 60 valid observations give a Snapshot. Sixty
    closes of 0.0 are 60 valid observations, and the division by the peak
    raises ZeroDivisionError. *)
Lemma sixty_zero_closes_raise :
  let env := env_uniform (replicate 60 0%float) "t" in
  exists df col,
    yf_download env "TQQQ" = Some df /\
    df_empty df = false /\
    df_column "Close" df = Some col /\
    length (dropna col) = 60%nat /\
    (fetch_snapshot "TQQQ" env fresh_world).2 = Raise ZeroDivisionError.
Proof.
  do 2 eexists. split; [reflexivity|]. split; [reflexivity|].
  split; [reflexivity|]. by vm_compute.
Qed.

(** C9, amended. fetch_snapshot raises when the provider returns None or
    an empty table, when the table has no Close column, and when fewer
    than 60 closes are left once the NaN ones are dropped, 59 included.
    With 60 closes or more it passes that check, and returns a Snapshot
    provided the highest close of the window is not zero. *)
Theorem fetch_snapshot_data_checks env symbol w :
  let outcome := (fetch_snapshot symbol env w).2 in
  (yf_download env symbol = None ->
   outcome = Raise (RuntimeError (FailedToFetch symbol)))
  /\ (forall df,
        yf_download env symbol = Some df ->
        (df_empty df = true ->
         outcome = Raise (RuntimeError (FailedToFetch symbol)))
        /\ (df_empty df = false -> df_column "Close" df = None ->
            outcome = Raise (RuntimeError (CloseColumnNotFound symbol)))
        /\ (forall col,
              df_empty df = false -> df_column "Close" df = Some col ->
              ((length (dropna col) < 60)%nat ->
               outcome = Raise (RuntimeError
                                  (NotEnoughData symbol (length (dropna col)))))
              /\ ((60 <= length (dropna col))%nat ->
                  PrimFloat.eqb (series_max (window col)) 0 = false ->
                  exists snap, outcome = Ok snap))).
Proof.
  cbn zeta. rewrite fetch_snapshot_run. cbn [snd]. rewrite fetched_unfold.
  split; [by intros ->|]. intros df ->. split; [by intros ->|].
  split; [by intros -> ->|]. intros col -> ->. split.
  - intros Hlt. by rewrite bool_decide_true.
  - intros Hge Hpeak. rewrite bool_decide_false by lia.
    destruct (window_nonempty col Hge) as (p & l & Hp & Hl).
    unfold series_idxmax, iloc_minus1, truediv. rewrite Hp, Hl, Hpeak.
    by eexists.
Qed.

(** ** The date of the peak *)

Lemma date_ltb_asym a b : date_ltb a b = true -> date_ltb b a = false.
Proof.
  unfold date_ltb. destruct a as [ya ma da], b as [yb mb db].
  cbn [year month day]. cbn zeta.
  intros H. apply not_true_is_false. intros H'.
  rewrite !orb_true_iff, !andb_true_iff, !orb_true_iff, !andb_true_iff,
    !Nat.ltb_lt, !Nat.eqb_eq in H, H'.
  lia.
Qed.

Lemma date_leb_refl a : date_leb a a = true.
Proof.
  unfold date_leb. destruct (date_ltb a a) eqn:E; [|done].
  by rewrite (date_ltb_asym _ _ E) in E.
Qed.

Lemma ascendingb_ascending dates : ascendingb dates = true -> ascending dates.
Proof.
  induction dates as [|d dates IH]; cbn; [constructor|].
  intros [Hd Hrest]%andb_prop. constructor; [by apply IH|].
  apply Forall_forall. intros x Hx. rewrite forallb_forall in Hd.
  apply Hd. by apply list_elem_of_In.
Qed.

Lemma StronglySorted_sublist {A} (R : A -> A -> Prop) (l1 l2 : list A) :
  l1 `sublist_of` l2 -> StronglySorted R l2 -> StronglySorted R l1.
Proof.
  induction 1 as [|x l1 l2 Hsub IH|x l1 l2 Hsub IH]; intros Hsorted.
  - constructor.
  - apply StronglySorted_cons in Hsorted as [Hx Hsorted].
    constructor; [by apply IH|].
    apply Forall_forall. intros y Hy. rewrite Forall_forall in Hx.
    apply Hx. by eapply elem_of_sublist.
  - apply StronglySorted_cons in Hsorted as [_ Hsorted]. by apply IH.
Qed.

Lemma ascending_zip dates (values : list float) :
  ascending dates -> StronglySorted row_before (zip dates values).
Proof.
  intros Hasc. revert values.
  induction Hasc as [|d dates Hasc IH Hd]; intros [|v values]; cbn;
    try constructor; [apply IH|].
  apply Forall_forall. intros [d' v'] Hin. unfold row_before. cbn.
  rewrite Forall_forall in Hd. apply Hd.
  by apply elem_of_zip_l in Hin.
Qed.

Lemma df_column_zip name df col :
  df_column name df = Some col -> exists values, col = zip (index df) values.
Proof.
  unfold df_column. destruct (list_find _ _) as [[i [n values]]|]; [|done].
  intros [= <-]. by exists values.
Qed.


(** * The theorems at sample inputs *)

Lemma escalation_single_alert_witness :
  let state := state_with (stored_entry "2024-03-01" 1) in
  let env := env_uniform (after_peak 0.20) "t" in
  let snap := Snapshot.Make "2024-04-30" 0.20 "2024-03-01" 1 (0.20 / 1 - 1) in
  exists th,
    TQQQ_levels !! Z.to_nat (3 - 1) = Some th /\
    let run := main_loop_body "t" state ("TQQQ", TQQQ_levels) env fresh_world in
    calls run.1 = calls fresh_world
                    ++ [Download "TQQQ"; GhIssueCreate (alert "TQQQ" 3 snap th)] /\
    alerts_for "TQQQ" (new_calls fresh_world run.1) = [alert "TQQQ" 3 snap th].
Proof.
  intros state env snap.
  apply (escalation_single_alert "t" state "TQQQ" TQQQ_levels env fresh_world
           snap 3).
  - vm_compute. reflexivity.
  - vm_compute. reflexivity.
  - vm_compute. reflexivity.
Defined.

Lemma second_evaluation_silent_witness :
  let state := {| version := 1; symbols := ∅ |} in
  let env := env_uniform (after_peak 0.65) "t1" in
  let rule := ("TQQQ", TQQQ_levels) in
  let first := main_loop_body "t1" state rule env fresh_world in
  exists state1,
    first.2 = Ok state1 /\
    exists state2,
      main_loop_body "t2" state1 rule env first.1 =
        (log_call (Download "TQQQ") first.1, Ok state2) /\
      stored_level state2 "TQQQ" = stored_level state1 "TQQQ".
Proof.
  intros state env rule first.
  set (snap := Snapshot.Make "2024-04-30" 0.65 "2024-03-01" 1 (0.65 / 1 - 1)).
  exists (set_symbol "TQQQ"
            (next_entry "t1" SymState.empty snap
               (Some (alert "TQQQ" 1 snap (-0.30)))) state).
  split; [vm_compute; reflexivity|].
  apply (second_evaluation_silent "t1" "t2" state "TQQQ" TQQQ_levels env env
           fresh_world first.1 _ snap snap).
  - vm_compute. reflexivity.
  - vm_compute. reflexivity.
  - reflexivity.
  - reflexivity.
  - vm_compute. reflexivity.
Defined.

Lemma notified_level_changes_with_alert_witness :
  (let env := env_uniform (after_peak 0.65) "t" in
   let w' := (main env fresh_world).1 in
   exists issue,
     issue ∈ alerts_for "TQQQ" (new_calls fresh_world w') /\
     file_level w' "TQQQ" = Some (i_level issue))
  /\ (let env := env_uniform (after_peak 0.9) "t" in
      let w := world_with (stored_entry "2024-01-10" 2) in
      let w' := (main env w).1 in
      file_peak_date w' "TQQQ" = Some "2024-03-01" /\
      file_level w' "TQQQ" = Some 2).
Proof.
  split.
  - intros env w'.
    apply (proj1 (notified_level_changes_with_alert env fresh_world) "TQQQ").
    vm_compute. discriminate.
  - intros env w w'.
    apply (proj2 (notified_level_changes_with_alert env w) eq_refl
             "TQQQ" TQQQ_levels
             (Snapshot.Make "2024-04-30" 0.9 "2024-03-01" 1 (0.9 / 1 - 1))).
    + apply list_elem_of_here.
    + vm_compute. reflexivity.
    + vm_compute. discriminate.
    + vm_compute. reflexivity.
Defined.

Lemma failure_aborts_run_witness :
  let env := env_TQQQ_only 0.65 "t" in
  exists w',
    main env fresh_world = (w', Raise (RuntimeError (FailedToFetch "SOXL"))) /\
    state_file w' = state_file fresh_world /\
    Forall (fun ev => event_symbol ev ∉ ["TECL"]) (new_calls fresh_world w').
Proof.
  intros env.
  set (snap := Snapshot.Make "2024-04-30" 0.65 "2024-03-01" 1 (0.65 / 1 - 1)).
  apply (failure_aborts_run env fresh_world
           [("TQQQ", TQQQ_levels)] "SOXL" [-0.45; -0.65; -0.85]%float
           [("TECL", [-0.25; -0.50; -0.75]%float)]
           (log_call (GhIssueCreate (alert "TQQQ" 1 snap (-0.30)))
              (log_call (Download "TQQQ") fresh_world))
           (set_symbol "TQQQ"
              (next_entry "t" SymState.empty snap
                 (Some (alert "TQQQ" 1 snap (-0.30))))
              (loaded fresh_world))).
  - reflexivity.
  - vm_compute. reflexivity.
  - left. vm_compute. reflexivity.
Defined.

Lemma fetch_snapshot_data_checks_witness :
  (fetch_snapshot "TQQQ" (env_uniform (replicate 59 1%float) "t") fresh_world).2
    = Raise (RuntimeError (NotEnoughData "TQQQ" 59))
  /\ exists snap,
       (fetch_snapshot "TQQQ" (env_uniform (replicate 60 1%float) "t")
          fresh_world).2 = Ok snap.
Proof.
  split.
  - destruct (fetch_snapshot_data_checks
                (env_uniform (replicate 59 1%float) "t") "TQQQ" fresh_world)
      as [_ Hdf].
    destruct (Hdf (sample_frame (replicate 59 1%float)) eq_refl)
      as (_ & _ & Hcol).
    destruct (Hcol (zip sample_dates (replicate 59 1%float)) eq_refl eq_refl)
      as [Hshort _].
    apply Hshort. vm_compute. lia.
  - destruct (fetch_snapshot_data_checks
                (env_uniform (replicate 60 1%float) "t") "TQQQ" fresh_world)
      as [_ Hdf].
    destruct (Hdf (sample_frame (replicate 60 1%float)) eq_refl)
      as (_ & _ & Hcol).
    destruct (Hcol (zip sample_dates (replicate 60 1%float)) eq_refl eq_refl)
      as [_ Hlong].
    apply Hlong.
    + vm_compute. lia.
    + vm_compute. reflexivity.
Defined.


Lemma one_alert_per_epoch_and_level_witness :
  let envs := [env_uniform (after_peak 0.65) "t1";
               env_uniform (after_peak 0.65) "t2";
               env_uniform (after_peak 0.40) "t3"] in
  let env := env_uniform (after_peak 0.65) "t" in
  let w := world_with (stored_entry "2024-01-10" 2) in
  let snap := Snapshot.Make "2024-04-30" 0.65 "2024-03-01" 1 (0.65 / 1 - 1) in
  (all_complete envs fresh_world /\
   NoDup (epoch_levels
            (alert_history "TQQQ" (file_peak_date fresh_world "TQQQ") 0 envs
               fresh_world)))
  /\ (effective_level (entry (loaded w) "TQQQ") snap = 0 /\
      exists th,
        TQQQ_levels !! Z.to_nat (1 - 1) = Some th /\
        alerts_for "TQQQ" (new_calls w (main env w).1) =
          [alert "TQQQ" 1 snap th]).
Proof.
  intros envs env w snap. split.
  - assert (all_complete envs fresh_world) as Hall.
    { vm_compute. repeat split. }
    split; [exact Hall|].
    exact (proj1 one_alert_per_epoch_and_level "TQQQ" envs fresh_world Hall).
  - apply (proj2 one_alert_per_epoch_and_level env w "TQQQ" TQQQ_levels snap 1).
    + apply list_elem_of_here.
    + vm_compute. reflexivity.
    + vm_compute. reflexivity.
    + vm_compute. discriminate.
    + vm_compute. reflexivity.
Defined.

(** * Further properties of the code *)

(** ** decide_level *)

Lemma SFcompare_Some_refl x y c : SFcompare x y = Some c -> SFcompare x x = Some Eq.
Proof. revert c. sf_cases. Qed.

Lemma leb_not_nan x y :
  PrimFloat.leb x y = true -> is_nan x = false /\ is_nan y = false.
Proof.
  rewrite leb_compare, !not_nan_compare. unfold fcompare.
  intros [H|H]; pose proof (SFcompare_antisym _ _ _ H) as H';
    rewrite (SFcompare_Some_refl _ _ _ H), (SFcompare_Some_refl _ _ _ H');
    done.
Qed.

(** X1. A level returned by decide_level is a position of the ladder, counted
    from 1, so that levels[hit_level - 1] in main never raises IndexError;
    and the drawdown is at or below the threshold found there. *)
Theorem decide_level_in_range d levels h :
  decide_level d levels = Some h ->
  1 <= h <= Z.of_nat (length levels) /\
  exists th, getitem levels (h - 1) = Ok th /\ PrimFloat.leb d th = true.
Proof.
  intros H. destruct (decide_level_getitem _ _ _ H) as (th & Hth & Hget & Hpos).
  pose proof (lookup_lt_Some _ _ _ Hth) as Hlt.
  split; [lia|]. exists th. split; [done|].
  rewrite decide_level_unfold in H.
  destruct (decide_level_scan d levels 1 None)
    as [[Hr _]|(j & th' & Hr & Hj & Hle & _)]; cbn zeta in *; [congruence|].
  assert (Z.to_nat (h - 1) = j) as Hpos' by (assert (h = 1 + Z.of_nat j) by congruence; lia).
  rewrite Hpos' in Hth. congruence.
Qed.

Lemma decide_level_in_range_witness :
  1 <= 2 <= Z.of_nat (length TQQQ_levels) /\
  exists th, getitem TQQQ_levels (2 - 1) = Ok th /\
             PrimFloat.leb (-0.60) th = true.
Proof.
  apply (decide_level_in_range (-0.60)%float TQQQ_levels 2).
  vm_compute. reflexivity.
Defined.

(** X2. A NaN drawdown reaches no level, whatever the ladder. *)
Theorem decide_level_nan d levels :
  is_nan d = true -> decide_level d levels = None.
Proof.
  intros Hnan. rewrite decide_level_unfold.
  destruct (decide_level_scan d levels 1 None)
    as [[Hr _]|(j & th & _ & _ & Hle & _)]; cbn zeta in *; [done|].
  apply leb_not_nan in Hle as [Hd _]. congruence.
Qed.

Lemma decide_level_nan_witness : decide_level nan TQQQ_levels = None.
Proof. apply decide_level_nan. vm_compute. reflexivity. Defined.

(** X3. A deeper drawdown never gives a shallower level: when d1 <= d2 and d2
    reaches level h2, d1 reaches a level that is at least h2. No ordering
    of the ladder is needed. *)
Theorem decide_level_deeper d1 d2 levels h2 :
  PrimFloat.leb d1 d2 = true ->
  decide_level d2 levels = Some h2 ->
  exists h1, decide_level d1 levels = Some h1 /\ h2 <= h1.
Proof.
  intros Hle. rewrite !decide_level_unfold.
  destruct (decide_level_scan d2 levels 1 None)
    as [[Hr _]|(j2 & th2 & Hr2 & Hj2 & Hle2 & _)]; cbn zeta in *;
    [congruence|].
  intros H2. assert (h2 = 1 + Z.of_nat j2) as -> by congruence.
  pose proof (leb_trans _ _ _ Hle Hle2) as Hle1.
  destruct (decide_level_scan d1 levels 1 None)
    as [[_ Hnone]|(j1 & th1 & Hr1 & Hj1 & _ & Hlast)]; cbn zeta in *.
  - by rewrite (Hnone _ _ Hj2) in Hle1.
  - exists (1 + Z.of_nat j1). split; [done|].
    destruct (decide (j2 <= j1)%nat) as [|Hgt]; [lia|].
    rewrite (Hlast j2 th2) in Hle1; [done|lia|done].
Qed.

Lemma decide_level_deeper_witness :
  exists h1, decide_level (-0.80) TQQQ_levels = Some h1 /\ 2 <= h1.
Proof.
  apply (decide_level_deeper (-0.80) (-0.60) TQQQ_levels 2).
  - vm_compute. reflexivity.
  - vm_compute. reflexivity.
Defined.

(** ** fetch_snapshot *)

Lemma window_not_nan col :
  Forall (fun q : date * float => is_nan q.2 = false) (window col).
Proof.
  apply Forall_forall. intros q Hq. apply (dropna_not_nan col).
  eapply elem_of_sublist; [exact Hq|]. apply window_sublist.
Qed.

Lemma greatest_max s p q :
  Forall (fun q : date * float => is_nan q.2 = false) s ->
  greatest s = Some p -> q ∈ s -> PrimFloat.leb q.2 p.2 = true.
Proof.
  intros Hnan Hp Hq.
  destruct (greatest_spec _ _ Hnan Hp) as (pre & post & -> & Hpre & Hpost).
  rewrite Forall_forall in Hnan, Hpre, Hpost.
  apply elem_of_app in Hq as [Hq|Hq]; [apply ltb_leb; by apply Hpre|].
  apply elem_of_cons in Hq as [->|Hq]; [|by apply Hpost].
  assert (is_nan p.2 = false) as Hp2.
  { apply (Hnan p). apply elem_of_app. right. apply list_elem_of_here. }
  apply not_ltb_leb; [done..|].
  destruct (PrimFloat.ltb p.2 p.2) eqn:E; [|done].
  pose proof (ltb_leb _ _ E) as E'. by rewrite (ltb_not_leb _ _ E) in E'.
Qed.

(** What a returned Snapshot is made of. *)
Lemma fetched_Ok env symbol snap :
  fetched env symbol = Ok snap ->
  exists df col p l,
    yf_download env symbol = Some df /\
    df_column "Close" df = Some col /\
    (60 <= length (dropna col))%nat /\
    greatest (window col) = Some p /\
    last (window col) = Some l /\
    PrimFloat.eqb p.2 0 = false /\
    snap = Snapshot.Make (isoformat l.1) l.2 (isoformat p.1) p.2
             (l.2 / p.2 - 1)%float.
Proof.
  rewrite fetched_unfold.
  destruct (yf_download env symbol) as [df|]; [|done].
  destruct (df_empty df); [done|].
  destruct (df_column "Close" df) as [col|] eqn:Hcol; [|done].
  case_bool_decide as Hlen; [done|].
  unfold series_idxmax, series_max, iloc_minus1, truediv.
  destruct (greatest (window col)) as [p|] eqn:Hp; [|done].
  destruct (last (window col)) as [l|] eqn:Hl; [|done].
  destruct (PrimFloat.eqb p.2 0) eqn:Hzero; [done|].
  intros [= <-]. exists df, col, p, l. repeat split; try done. lia.
Qed.

(** X4. In a Snapshot the last close is at or below the peak value, neither of
    them is NaN, the peak value is not zero, and the drawdown is their
    quotient less one. *)
Theorem snapshot_last_close_below_peak env symbol w snap :
  (fetch_snapshot symbol env w).2 = Ok snap ->
  PrimFloat.leb (Snapshot.last_close snap) (Snapshot.peak_value snap) = true /\
  is_nan (Snapshot.last_close snap) = false /\
  is_nan (Snapshot.peak_value snap) = false /\
  PrimFloat.eqb (Snapshot.peak_value snap) 0 = false /\
  Snapshot.drawdown snap =
    (Snapshot.last_close snap / Snapshot.peak_value snap - 1)%float.
Proof.
  rewrite fetch_snapshot_run. cbn [snd]. intros Hfetch.
  apply fetched_Ok in Hfetch
    as (df & col & p & l & _ & _ & _ & Hp & Hl & Hzero & ->). cbn.
  assert (PrimFloat.leb l.2 p.2 = true) as Hle.
  { apply (greatest_max (window col)); [apply window_not_nan|done|].
    apply last_Some in Hl as [l' ->]. apply elem_of_app. right.
    apply list_elem_of_here. }
  split; [done|]. by destruct (leb_not_nan _ _ Hle).
Qed.

Lemma snapshot_last_close_below_peak_witness :
  let snap := Snapshot.Make "2024-04-30" 0.65 "2024-03-01" 1 (0.65 / 1 - 1) in
  PrimFloat.leb (Snapshot.last_close snap) (Snapshot.peak_value snap) = true /\
  is_nan (Snapshot.last_close snap) = false /\
  is_nan (Snapshot.peak_value snap) = false /\
  PrimFloat.eqb (Snapshot.peak_value snap) 0 = false /\
  Snapshot.drawdown snap =
    (Snapshot.last_close snap / Snapshot.peak_value snap - 1)%float.
Proof.
  intros snap.
  apply (snapshot_last_close_below_peak (env_uniform (after_peak 0.65) "t")
           "TQQQ" fresh_world snap).
  vm_compute. reflexivity.
Defined.

(** X5. With the provider's index in ascending date order, the peak date of a
    Snapshot is not after its last date, and both are dates of the
    index. *)
Theorem snapshot_peak_date_not_after_last env symbol w df snap :
  yf_download env symbol = Some df ->
  ascending (index df) ->
  (fetch_snapshot symbol env w).2 = Ok snap ->
  exists d l,
    Snapshot.peak_date snap = isoformat d /\
    Snapshot.last_date snap = isoformat l /\
    d ∈ index df /\ l ∈ index df /\
    date_leb d l = true.
Proof.
  intros Hdf Hasc. rewrite fetch_snapshot_run. cbn [snd]. intros Hfetch.
  apply fetched_Ok in Hfetch
    as (df' & col & [d v] & [l lv] & Hdf' & Hcol & _ & Hp & Hl & _ & ->).
  assert (df' = df) as -> by congruence. cbn.
  destruct (df_column_zip _ _ _ Hcol) as [values ->].
  destruct (greatest_spec _ _ (window_not_nan _) Hp)
    as (pre & post & Heq & _ & _).
  assert (StronglySorted row_before (pre ++ (d, v) :: post)) as Hsorted.
  { rewrite <- Heq. eapply StronglySorted_sublist; [|by apply ascending_zip].
    etrans; [apply window_sublist|]. apply sublist_filter. }
  assert (forall q, q ∈ window (zip (index df) values) -> q.1 ∈ index df)
    as Hindex.
  { intros [qd qv] Hq. eapply elem_of_zip_l.
    eapply elem_of_sublist; [exact Hq|].
    etrans; [apply window_sublist|]. apply sublist_filter. }
  exists d, l. split; [done|]. split; [done|].
  split; [apply (Hindex (d, v)); rewrite Heq; apply elem_of_app; right;
          apply list_elem_of_here|].
  apply last_Some in Hl as [rows Hrows].
  split; [apply (Hindex (l, lv)); rewrite Hrows; apply elem_of_app; right;
          apply list_elem_of_here|].
  rewrite Heq in Hrows.
  destruct post as [|q post _] using rev_ind.
  - apply app_inj_tail in Hrows as [_ [= -> ->]]. apply date_leb_refl.
  - rewrite app_comm_cons, app_assoc in Hrows.
    apply app_inj_tail in Hrows as [_ ->].
    apply StronglySorted_app_1_r, StronglySorted_cons in Hsorted as [Hd _].
    rewrite Forall_forall in Hd.
    assert (row_before (d, v) (l, lv)) as Hbefore.
    { apply Hd. apply elem_of_app. right. apply list_elem_of_here. }
    unfold row_before in Hbefore. cbn in Hbefore.
    unfold date_leb. by rewrite (date_ltb_asym _ _ Hbefore).
Qed.

Lemma snapshot_peak_date_not_after_last_witness :
  exists d l,
    "2024-03-02" = isoformat d /\ "2024-04-30" = isoformat l /\
    d ∈ sample_dates /\ l ∈ sample_dates /\ date_leb d l = true.
Proof.
  apply (snapshot_peak_date_not_after_last (env_uniform tied_closes "t")
           "TQQQ" fresh_world (sample_frame tied_closes)
           (Snapshot.Make "2024-04-30" 0.8 "2024-03-02" 1 (0.8 / 1 - 1))).
  - reflexivity.
  - apply ascendingb_ascending. vm_compute. reflexivity.
  - vm_compute. reflexivity.
Defined.

(** ** The calls of a run *)

Lemma downloads_for_app symbol evs1 evs2 :
  downloads_for symbol (evs1 ++ evs2) =
  downloads_for symbol evs1 ++ downloads_for symbol evs2.
Proof. apply omap_app. Qed.

Lemma downloads_for_other symbol evs :
  Forall (fun ev => event_symbol ev ≠ symbol) evs -> downloads_for symbol evs = [].
Proof.
  induction 1 as [|ev evs Hev _ IH]; [done|].
  change (ev :: evs) with ([ev] ++ evs). rewrite downloads_for_app, IH.
  destruct ev as [s|issue]; [|done]. unfold downloads_for. cbn.
  by rewrite bool_decide_false.
Qed.

Lemma downloads_for_evaluation symbol issues s :
  downloads_for s (Download symbol :: (GhIssueCreate <$> issues)) =
  if bool_decide (symbol = s) then [symbol] else [].
Proof.
  change (Download symbol :: (GhIssueCreate <$> issues))
    with ([Download symbol] ++ (GhIssueCreate <$> issues)).
  rewrite downloads_for_app.
  assert (downloads_for s (GhIssueCreate <$> issues) = []) as ->.
  { induction issues as [|i issues IH]; [done|]. exact IH. }
  rewrite app_nil_r. unfold downloads_for. cbn. by case_bool_decide.
Qed.

(** The calls of one evaluation: the download, then at most one gh call,
    and that one for the issue the decision owes. *)
Lemma main_loop_body_calls now state symbol levels env w w' r :
  main_loop_body now state (symbol, levels) env w = (w', r) ->
  exists alert,
    calls w' = calls w ++ Download symbol :: (GhIssueCreate <$> option_list alert) /\
    forall issue, alert = Some issue ->
      exists snap, fetched env symbol = Ok snap /\
                   owed symbol levels (entry state symbol) snap = Some issue.
Proof.
  rewrite main_loop_body_run. cbn zeta.
  destruct (fetched env symbol) as [snap|e].
  - destruct (owed _ _ _ _) as [issue|] eqn:Howed.
    + intros Hrun. exists (Some issue). split.
      * assert (w' = log_call (GhIssueCreate issue)
                       (log_call (Download symbol) w)) as ->
          by (destruct (gh_succeeds env issue); congruence).
        cbn. by rewrite <- app_assoc.
      * intros ? [= <-]. by exists snap.
    + intros [= <- _]. by exists None.
  - intros [= <- _]. by exists None.
Qed.

Lemma alerts_for_chunk symbol alert s :
  (forall issue, alert = Some issue -> i_symbol issue = symbol) ->
  alerts_for s (Download symbol :: (GhIssueCreate <$> option_list alert)) =
  if bool_decide (symbol = s) then option_list alert else [].
Proof.
  intros Hsym. destruct alert as [issue|]; cbn.
  - rewrite <- (Hsym issue eq_refl). unfold alerts_for. cbn.
    by case_bool_decide.
  - by case_bool_decide.
Qed.

(** The calls of a loop, returned or raised: per symbol at most one
    download and at most one issue, and the issue is the one owed on the
    entry the loop started with. *)
Lemma foldM_calls now rules state env w w' r s :
  NoDup rules.*1 ->
  foldM (main_loop_body now) state rules env w = (w', r) ->
  let new := new_calls w w' in
  (length (downloads_for s new) <= 1)%nat /\
  (alerts_for s new = []
   \/ exists levels snap issue,
        (s, levels) ∈ rules /\ fetched env s = Ok snap /\
        owed s levels (entry state s) snap = Some issue /\
        alerts_for s new = [issue]).
Proof.
  revert state w. induction rules as [|[s0 l0] rules IH]; intros state w Hnd;
    cbn [foldM].
  - intros [= <- _]. unfold new_calls. rewrite drop_all. cbn. split; [lia|by left].
  - rewrite fmap_cons in Hnd. cbn [fst] in Hnd.
    apply NoDup_cons in Hnd as [Hs0 Hnd]. rewrite bind_run.
    destruct (main_loop_body _ _ _ _ _) as [w1 r1] eqn:Hbody.
    pose proof Hbody as Hstate.
    apply main_loop_body_calls in Hbody as (a & Hcalls1 & Ha).
    assert (forall issue, a = Some issue -> i_symbol issue = s0) as Hsym.
    { intros issue Hissue. destruct (Ha _ Hissue) as (snap & _ & Howed).
      by apply owed_Some in Howed as (? & _). }
    destruct r1 as [state1|e1].
    + apply main_loop_body_Ok in Hstate as (snap1 & _ & Hstate1 & _).
      cbn zeta in Hstate1. intros Hrest. pose proof Hrest as Hframe.
      apply foldM_frame in Hframe as (_ & new2 & Hcalls2 & Hnew2).
      apply (IH _ _ Hnd) in Hrest as [Hdl Halerts]. cbn zeta in *.
      rewrite (new_calls_app w1 w' new2 Hcalls2) in Hdl, Halerts.
      rewrite (new_calls_app w w'
                 ((Download s0 :: (GhIssueCreate <$> option_list a)) ++ new2))
        by (by rewrite Hcalls2, Hcalls1, <- app_assoc).
      rewrite downloads_for_app, alerts_for_app, downloads_for_evaluation,
        alerts_for_chunk by done.
      case_bool_decide as Heq.
      * clear Hstate1. subst s0.
        assert (Forall (fun ev => event_symbol ev ≠ s) new2) as Hother.
        { eapply Forall_impl; [exact Hnew2|]. intros ev Hev Heq.
          cbn beta in Hev. by rewrite Heq in Hev. }
        rewrite alerts_for_other, downloads_for_other, !app_nil_r by done.
        split; [cbn; lia|]. destruct a as [issue|]; [|by left]. right.
        destruct (Ha issue eq_refl) as (snap & Hfetch & Howed).
        exists l0, snap, issue. split; [apply list_elem_of_here|done].
      * cbn [app]. split; [done|].
        destruct Halerts as [?|(levels & snap & issue & Hin & ? & Howed & ?)];
          [by left|right].
        exists levels, snap, issue. split; [by apply list_elem_of_further|].
        split; [done|]. split; [|done].
        rewrite Hstate1, entry_set_symbol_ne in Howed; done.
    + intros [= <- _].
      rewrite (new_calls_app w w1 _ Hcalls1), downloads_for_evaluation,
        alerts_for_chunk by done.
      case_bool_decide as Heq; [subst s0|split; [cbn; lia|by left]].
      split; [cbn; lia|]. destruct a as [issue|]; [|by left]. right.
      destruct (Ha issue eq_refl) as (snap & Hfetch & Howed).
      exists l0, snap, issue. split; [apply list_elem_of_here|done].
Qed.

Lemma main_new_calls env w :
  exists w1 r,
    foldM (main_loop_body (utcnow env)) (loaded w) RULES env w = (w1, r) /\
    new_calls w (main env w).1 = new_calls w w1.
Proof.
  rewrite main_run.
  destruct (foldM _ _ _ _ _) as [w1 [state|e]]; by eexists _, _.
Qed.

(** X8. In any run, returned or raised, the provider is asked at most once
    per symbol and at most one issue is filed per symbol, and every call
    is for a symbol of RULES. *)
Theorem run_calls_once_per_symbol env w symbol :
  let new := new_calls w (main env w).1 in
  (length (downloads_for symbol new) <= 1)%nat /\
  (length (alerts_for symbol new) <= 1)%nat /\
  Forall (fun ev => event_symbol ev ∈ RULES.*1) new.
Proof.
  cbn zeta. destruct (main_calls env w) as (new & Hcalls & Hnew).
  destruct (main_new_calls env w) as (w1 & r & Hloop & ->).
  destruct (foldM_calls _ _ _ _ _ _ _ symbol RULES_NoDup Hloop) as [Hdl Halerts].
  split; [done|]. split.
  - destruct Halerts as [->|(levels & snap & issue & _ & _ & _ & ->)]; cbn; lia.
  - apply foldM_frame in Hloop as (_ & new1 & Hcalls1 & Hnew1).
    by rewrite (new_calls_app _ _ _ Hcalls1).
Qed.

(** X9. No issue is filed that the decision does not owe, also in a run that
    raises later: an issue filed for a symbol carries the snapshot
    fetched for it, its level is the one decide_level gives for that
    snapshot on the symbol's ladder, that level is above the effective
    notified level of the entry on file, and its threshold is the
    ladder's at that level. *)
Theorem issue_filed_was_owed env w symbol issue :
  issue ∈ alerts_for symbol (new_calls w (main env w).1) ->
  exists levels,
    (symbol, levels) ∈ RULES /\
    fetched env symbol = Ok (i_snap issue) /\
    decide_level (Snapshot.drawdown (i_snap issue)) levels
      = Some (i_level issue) /\
    i_level issue > effective_level (entry (loaded w) symbol) (i_snap issue) /\
    levels !! Z.to_nat (i_level issue - 1) = Some (i_threshold issue).
Proof.
  destruct (main_new_calls env w) as (w1 & r & Hloop & ->).
  destruct (foldM_calls _ _ _ _ _ _ _ symbol RULES_NoDup Hloop)
    as [_ [->|(levels & snap & issue' & Hin & Hfetch & Howed & ->)]].
  - intros H. by apply elem_of_nil in H.
  - intros ->%list_elem_of_singleton.
    apply owed_Some in Howed as (_ & -> & ? & ? & ?). by exists levels.
Qed.

Lemma issue_filed_was_owed_witness :
  let snap := Snapshot.Make "2024-04-30" 0.65 "2024-03-01" 1 (0.65 / 1 - 1) in
  let issue := alert "TQQQ" 1 snap (-0.30) in
  exists levels,
    (("TQQQ" : string), levels) ∈ RULES /\
    fetched (env_TQQQ_only 0.65 "t") "TQQQ" = Ok (i_snap issue) /\
    decide_level (Snapshot.drawdown (i_snap issue)) levels
      = Some (i_level issue) /\
    i_level issue
      > effective_level (entry (loaded fresh_world) "TQQQ") (i_snap issue) /\
    levels !! Z.to_nat (i_level issue - 1) = Some (i_threshold issue).
Proof.
  intros snap issue.
  apply (issue_filed_was_owed (env_TQQQ_only 0.65 "t") fresh_world "TQQQ" issue).
  vm_compute. apply list_elem_of_here.
Defined.

(** ** What a run writes *)

Lemma rules_ladder_unique (rules : list (string * list float)) s l1 l2 :
  NoDup rules.*1 -> (s, l1) ∈ rules -> (s, l2) ∈ rules -> l1 = l2.
Proof.
  induction rules as [|[s0 l0] rules IH]; intros Hnd H1 H2.
  { by apply elem_of_nil in H1. }
  rewrite fmap_cons in Hnd. cbn [fst] in Hnd.
  apply NoDup_cons in Hnd as [Hs0 Hnd].
  assert (forall l, (s0, l) ∈ rules -> False) as Hfresh.
  { intros l Hl. apply Hs0. apply list_elem_of_fmap. by exists (s0, l). }
  apply elem_of_cons in H1 as [[= -> ->]|H1];
    apply elem_of_cons in H2 as [[= <-]|H2];
    try done; try (exfalso; by eapply Hfresh); try (subst; exfalso; by eapply Hfresh).
  by apply IH.
Qed.

Lemma file_level_stored w symbol :
  file_level w symbol = stored_level (loaded w) symbol.
Proof. unfold file_level, stored_level. by rewrite file_entry_loaded. Qed.

(** X10. A run that returns leaves a state file with the version it found (1
    when there was no file), with an entry for every symbol it had an
    entry for and for every symbol of RULES, and with the entries of
    symbols outside RULES as they were: no entry is ever deleted. *)
Theorem completed_run_keeps_entries env w w' :
  main env w = (w', Ok tt) ->
  exists state',
    state_file w' = Some state' /\
    version state' = version (loaded w) /\
    dom (symbols state') = dom (symbols (loaded w)) ∪ list_to_set RULES.*1 /\
    forall s, s ∉ RULES.*1 -> symbols state' !! s = symbols (loaded w) !! s.
Proof.
  rewrite main_run.
  destruct (foldM _ _ _ _ _) as [w1 [state'|e]] eqn:Hloop; [|done].
  intros [= <-]. exists state'. split; [done|].
  apply (foldM_Ok _ _ _ _ _ _ _ RULES_NoDup) in Hloop as (Hver & Hother & Hrules).
  split; [done|]. split; [|done].
  apply set_eq. intros s.
  rewrite elem_of_union, !elem_of_dom, elem_of_list_to_set.
  destruct (decide (s ∈ RULES.*1)) as [Hin|Hout].
  - split; [by right|]. intros _.
    apply list_elem_of_fmap in Hin as ([s' levels] & -> & Hin).
    destruct (Hrules _ _ Hin) as (snap & _ & Hentry & _). cbn in *.
    by rewrite Hentry.
  - rewrite (Hother _ Hout). tauto.
Qed.

Lemma completed_run_keeps_entries_witness :
  let w := world_with (stored_entry "2024-01-10" 2) in
  exists state',
    state_file (main (env_uniform (after_peak 0.9) "t") w).1 = Some state' /\
    version state' = version (loaded w) /\
    dom (symbols state') = dom (symbols (loaded w)) ∪ list_to_set RULES.*1 /\
    forall s, s ∉ RULES.*1 -> symbols state' !! s = symbols (loaded w) !! s.
Proof.
  intros w.
  apply (completed_run_keeps_entries (env_uniform (after_peak 0.9) "t") w).
  vm_compute. reflexivity.
Defined.

(** X11. A notified_level that a run writes is a position of the symbol's
    ladder in RULES, counted from 1. *)
Theorem written_level_is_ladder_position env w symbol :
  file_level (main env w).1 symbol ≠ file_level w symbol ->
  exists levels h,
    (symbol, levels) ∈ RULES /\
    file_level (main env w).1 symbol = Some h /\
    1 <= h <= Z.of_nat (length levels).
Proof.
  destruct (main env w) as [w' [[]|e]] eqn:Hmain; cbn [fst].
  - destruct (main_Ok _ _ _ Hmain) as [Hother Hrules]. intros Hchanged.
    destruct (decide (symbol ∈ RULES.*1)) as [Hin|Hout].
    + apply list_elem_of_fmap in Hin as ([s levels] & -> & Hin). cbn in *.
      destruct (Hrules _ _ Hin) as (snap & _ & Hentry & _ & _).
      cbn zeta in *. unfold file_level at 1 in Hchanged. unfold file_level at 1.
      rewrite Hentry in *. cbn in *.
      destruct (owed _ _ _ _) as [issue|] eqn:Howed.
      * apply owed_Some in Howed as (_ & _ & Hhit & _ & Hth).
        apply decide_level_getitem in Hhit as (_ & _ & _ & Hpos).
        apply lookup_lt_Some in Hth.
        exists levels, (i_level issue). split; [done|]. split; [done|]. lia.
      * by rewrite file_level_loaded in Hchanged.
    + intros. exfalso. apply Hchanged. unfold file_level.
      by rewrite (Hother _ Hout).
  - intros Hchanged. exfalso. apply Hchanged.
    unfold file_level, file_entry. by rewrite (main_raise_file _ _ _ _ Hmain).
Qed.

Lemma written_level_is_ladder_position_witness :
  let env := env_uniform (after_peak 0.65) "t" in
  exists levels h,
    (("TQQQ" : string), levels) ∈ RULES /\
    file_level (main env fresh_world).1 "TQQQ" = Some h /\
    1 <= h <= Z.of_nat (length levels).
Proof.
  intros env. apply (written_level_is_ladder_position env fresh_world "TQQQ").
  vm_compute. discriminate.
Defined.

(** X12. While the peak date stays what it is on file, a run that returns
    never lowers the notified level (None counting as 0). *)
Theorem level_never_drops_within_epoch env w w' symbol levels snap :
  main env w = (w', Ok tt) ->
  (symbol, levels) ∈ RULES ->
  fetched env symbol = Ok snap ->
  file_peak_date w symbol = Some (Snapshot.peak_date snap) ->
  or_zero (file_level w symbol) <= or_zero (file_level w' symbol).
Proof.
  intros Hmain Hin Hfetch Hpeak.
  destruct (main_Ok _ _ _ Hmain) as [_ Hrules].
  destruct (Hrules _ _ Hin) as (snap' & Hfetch' & Hentry & _ & _).
  assert (snap' = snap) as -> by congruence. cbn zeta in Hentry.
  assert (file_level w' symbol =
          match owed symbol levels (entry (loaded w) symbol) snap with
          | Some issue => Some (i_level issue)
          | None => file_level w symbol
          end) as ->.
  { unfold file_level at 1. rewrite Hentry. cbn.
    destruct (owed _ _ _ _); [done|]. apply file_level_loaded. }
  destruct (owed _ _ _ _) as [issue|] eqn:Howed; [|lia].
  apply owed_Some in Howed as (_ & _ & _ & Hgt & _).
  unfold effective_level in Hgt.
  rewrite file_peak_date_loaded, file_level_loaded, Hpeak in Hgt.
  rewrite bool_decide_false in Hgt by (intros H; by apply H).
  rewrite or_zero_Some. lia.
Qed.

Lemma level_never_drops_within_epoch_witness :
  let w := world_with (stored_entry "2024-03-01" 1) in
  let env := env_uniform (after_peak 0.40) "t" in
  or_zero (file_level w "TQQQ") <= or_zero (file_level (main env w).1 "TQQQ").
Proof.
  intros w env.
  apply (level_never_drops_within_epoch env w (main env w).1 "TQQQ" TQQQ_levels
           (Snapshot.Make "2024-04-30" 0.40 "2024-03-01" 1 (0.40 / 1 - 1))).
  - vm_compute. reflexivity.
  - apply list_elem_of_here.
  - vm_compute. reflexivity.
  - vm_compute. reflexivity.
Defined.

(** ** Consecutive runs *)



Lemma owed_after_evaluation symbol levels now ss snap snap' :
  Snapshot.peak_date snap' = Snapshot.peak_date snap ->
  Snapshot.drawdown snap' = Snapshot.drawdown snap ->
  owed symbol levels
    (next_entry now ss snap (owed symbol levels ss snap)) snap' = None.
Proof.
  intros Hpeak Hdd. apply owed_silent. rewrite Hdd.
  unfold effective_level at 1.
  cbn [next_entry SymState.update SymState.peak_date SymState.notified_level].
  rewrite Hpeak, bool_decide_false by (intros H; by apply H).
  destruct (owed symbol levels ss snap) as [issue|] eqn:Ha.
  - apply owed_Some in Ha as (_ & _ & Hhit & _).
    right. exists (i_level issue). split; [done|].
    change (i_level issue <= or_zero (Some (i_level issue))).
    rewrite or_zero_Some. lia.
  - apply owed_None in Ha as [Hnone|(h & Hhit & Hle)]; [by left|].
    right. exists h. split; [done|].
    destruct (decide_level_getitem _ _ _ Hhit) as (_ & _ & _ & Hh).
    unfold effective_level in Hle. case_bool_decide; [lia|done].
Qed.

(** A loop in which no evaluation owes an issue: it returns with one
    download per symbol and no other call, and no notified level has
    changed. *)
Lemma foldM_silent now rules state env w :
  NoDup rules.*1 ->
  (forall s levels, (s, levels) ∈ rules ->
     exists snap, fetched env s = Ok snap /\
                  owed s levels (entry state s) snap = None) ->
  exists state',
    foldM (main_loop_body now) state rules env w =
      ({| state_file := state_file w;
          calls := calls w ++ (Download <$> rules.*1) |}, Ok state') /\
    forall s, stored_level state' s = stored_level state s.
Proof.
  revert state w. induction rules as [|[s0 l0] rules IH]; intros state w Hnd Hall;
    cbn [foldM].
  - exists state. split; [|done]. cbn. rewrite app_nil_r. by destruct w.
  - rewrite fmap_cons in Hnd. cbn [fst] in Hnd.
    apply NoDup_cons in Hnd as [Hs0 Hnd].
    destruct (Hall s0 l0) as (snap0 & Hfetch0 & Howed0); [apply list_elem_of_here|].
    rewrite bind_run, (main_loop_body_silent _ _ _ _ _ _ _ Hfetch0 Howed0).
    set (state1 := set_symbol s0 _ state).
    destruct (IH state1 (log_call (Download s0) w) Hnd) as (state' & -> & Hlev).
    { intros s levels Hin.
      assert (s0 ≠ s) as Hne.
      { intros ->. apply Hs0. apply list_elem_of_fmap. by exists (s, levels). }
      subst state1. rewrite entry_set_symbol_ne by done.
      apply Hall. by apply list_elem_of_further. }
    exists state'. split.
    + cbn. by rewrite <- app_assoc.
    + intros s. rewrite Hlev. subst state1.
      destruct (decide (s0 = s)) as [->|Hne].
      * by rewrite stored_level_next, stored_level_entry.
      * unfold stored_level, set_symbol. cbn. by rewrite lookup_insert_ne.
Qed.

(** X14. Running again on the same provider data, after a run that returned:
    the second run returns whether or not gh works, makes one download
    per symbol of RULES and no gh call, and leaves every notified level
    as the first run saved it. *)
Theorem rerun_is_silent env1 env2 w w1 :
  main env1 w = (w1, Ok tt) ->
  (forall s, s ∈ RULES.*1 -> fetched env2 s = fetched env1 s) ->
  exists w2,
    main env2 w1 = (w2, Ok tt) /\
    new_calls w1 w2 = Download <$> RULES.*1 /\
    forall s, file_level w2 s = file_level w1 s.
Proof.
  intros Hmain1 Hsame.
  destruct (main_Ok _ _ _ Hmain1) as [_ Hrules].
  destruct (foldM_silent (utcnow env2) RULES (loaded w1) env2 w1 RULES_NoDup)
    as (state2 & Hloop & Hlev).
  { intros s levels Hin.
    destruct (Hrules _ _ Hin) as (snap & Hfetch & Hentry & _ & _).
    cbn zeta in Hentry. exists snap. split.
    - rewrite Hsame; [done|]. apply list_elem_of_fmap. by exists (s, levels).
    - unfold entry at 1. rewrite file_entry_loaded, Hentry. cbn [default].
      by apply owed_after_evaluation. }
  eexists. split; [by rewrite main_run, Hloop|]. split.
  - by apply new_calls_app.
  - intros s. rewrite (file_level_stored w1). rewrite <- Hlev.
    unfold file_level, file_entry, stored_level. done.
Qed.

Lemma rerun_is_silent_witness :
  let env1 := env_uniform (after_peak 0.65) "t1" in
  let env2 := {| yf_download := yf_download env1;
                 gh_succeeds := fun _ => false;
                 utcnow := "t2" |} in
  let w1 := (main env1 fresh_world).1 in
  exists w2,
    main env2 w1 = (w2, Ok tt) /\
    new_calls w1 w2 = Download <$> RULES.*1 /\
    forall s, file_level w2 s = file_level w1 s.
Proof.
  intros env1 env2 w1.
  apply (rerun_is_silent env1 env2 fresh_world w1).
  - vm_compute. reflexivity.
  - intros s _. reflexivity.
Defined.

(** ** Issue titles *)

Lemma string_length_app (s1 s2 : string) :
  String.length (s1 +:+ s2) = (String.length s1 + String.length s2)%nat.
Proof.
  induction s1 as [|a s1 IH]; [done|].
  change (S (String.length (s1 +:+ s2))
          = S (String.length s1 + String.length s2)).
  by rewrite IH.
Qed.

Lemma string_app_inv_r (s1 s2 t : string) : s1 +:+ t = s2 +:+ t -> s1 = s2.
Proof.
  revert s2. induction s1 as [|a s1 IH]; intros [|b s2] H.
  - done.
  - apply (f_equal String.length) in H.
    rewrite !string_length_app in H. cbn in H. lia.
  - apply (f_equal String.length) in H.
    rewrite !string_length_app in H. cbn in H. lia.
  - change (String a (s1 +:+ t) = String b (s2 +:+ t)) in H.
    injection H as -> H. f_equal. by apply IH.
Qed.

(** The titles of the issues main can file for the first level of each
    ladder, as gh receives them: the product threshold*100 is not an
    integer in binary64, the format rounds it to one. *)
Example issue_title_examples :
  let snap := Snapshot.Make "2024-04-30" 0.65 "2024-03-01" 1 (0.65 / 1 - 1) in
  issue_title (alert "TQQQ" 1 snap (-0.30))
    = "[DD Alert] TQQQ L1 since 2024-03-01 (<= -30%)" /\
  issue_title (alert "TQQQ" 2 snap (-0.55))
    = "[DD Alert] TQQQ L2 since 2024-03-01 (<= -55%)" /\
  issue_title (alert "SOXL" 3 snap (-0.85))
    = "[DD Alert] SOXL L3 since 2024-03-01 (<= -85%)" /\
  format_f0 0.5 = "0" /\ format_f0 1.5 = "2" /\ format_f0 2.5 = "2" /\
  format_f0 (-0.4) = "-0" /\ format_f0 1e22 = "10000000000000000000000".
Proof. vm_compute. repeat split. Qed.

(** X15. Two issues for the same symbol, level and threshold have the same
    title exactly when their snapshots have the same peak date: a moved
    peak gives the issue another title. *)
Theorem issue_title_tells_peak_dates_apart a b :
  i_symbol a = i_symbol b ->
  i_level a = i_level b ->
  i_threshold a = i_threshold b ->
  issue_title a = issue_title b <->
  Snapshot.peak_date (i_snap a) = Snapshot.peak_date (i_snap b).
Proof.
  intros Hsym Hlev Hth. unfold issue_title. rewrite Hsym, Hlev, Hth.
  split; [|by intros ->]. intros H.
  repeat apply String.app_inj in H.
  by apply string_app_inv_r in H.
Qed.

Lemma issue_title_tells_peak_dates_apart_witness :
  let old := Snapshot.Make "2024-02-28" 0.65 "2024-01-10" 1 (0.65 / 1 - 1) in
  let new := Snapshot.Make "2024-04-30" 0.65 "2024-03-01" 1 (0.65 / 1 - 1) in
  issue_title (alert "TQQQ" 1 old (-0.30))
    ≠ issue_title (alert "TQQQ" 1 new (-0.30)).
Proof.
  intros old new H.
  apply (issue_title_tells_peak_dates_apart
           (alert "TQQQ" 1 old (-0.30)) (alert "TQQQ" 1 new (-0.30))
           eq_refl eq_refl eq_refl) in H.
  discriminate H.
Defined.

(** ** Dates as strings *)

Ltac div_lia := zify; Z.to_euclidean_division_equations; lia.

(** The four characters of a number below 10000 padded to width 4, and
    the two of a number below 100 padded to width 2. *)
Lemma zfill4_digits (x : N) :
  (x < 10000)%N ->
  zfill 4 (pretty x) =
  String (pretty_N_char (x / 1000))
    (String (pretty_N_char (x / 100 mod 10))
       (String (pretty_N_char (x / 10 mod 10))
          (String (pretty_N_char (x mod 10)) ""))).
Proof.
  intros Hx. unfold pretty, pretty_N.
  destruct (decide (x = 0)%N) as [->|Hne]; [reflexivity|].
  assert (x < 10 \/ 10 <= x < 100 \/ 100 <= x < 1000 \/ 1000 <= x)%N
    as [H|[H|[H|H]]] by lia.
  - rewrite pretty_N_go_step by lia.
    replace (x / 10)%N with 0%N by div_lia. rewrite pretty_N_go_0.
    replace (x / 1000)%N with 0%N by div_lia.
    replace (x / 100)%N with 0%N by div_lia. reflexivity.
  - rewrite pretty_N_go_step by lia.
    rewrite pretty_N_go_step by div_lia.
    replace (x / 10 / 10)%N with 0%N by div_lia. rewrite pretty_N_go_0.
    replace (x / 1000)%N with 0%N by div_lia.
    replace (x / 100)%N with 0%N by div_lia.
    replace (x / 10 mod 10)%N with (x / 10)%N by div_lia. reflexivity.
  - rewrite pretty_N_go_step by lia.
    rewrite pretty_N_go_step by div_lia.
    rewrite pretty_N_go_step by div_lia.
    replace (x / 10 / 10 / 10)%N with 0%N by div_lia. rewrite pretty_N_go_0.
    replace (x / 1000)%N with 0%N by div_lia.
    replace (x / 10 / 10 mod 10)%N with (x / 100 mod 10)%N by div_lia.
    reflexivity.
  - rewrite pretty_N_go_step by lia.
    rewrite pretty_N_go_step by div_lia.
    rewrite pretty_N_go_step by div_lia.
    rewrite pretty_N_go_step by div_lia.
    replace (x / 10 / 10 / 10 / 10)%N with 0%N by div_lia.
    rewrite pretty_N_go_0.
    replace (x / 10 / 10 / 10 mod 10)%N with (x / 1000)%N by div_lia.
    replace (x / 10 / 10 mod 10)%N with (x / 100 mod 10)%N by div_lia.
    reflexivity.
Qed.

Lemma zfill2_digits (x : N) :
  (x < 100)%N ->
  zfill 2 (pretty x) =
  String (pretty_N_char (x / 10)) (String (pretty_N_char (x mod 10)) "").
Proof.
  intros Hx. unfold pretty, pretty_N.
  destruct (decide (x = 0)%N) as [->|Hne]; [reflexivity|].
  assert (x < 10 \/ 10 <= x)%N as [H|H] by lia.
  - rewrite pretty_N_go_step by lia.
    replace (x / 10)%N with 0%N by div_lia. rewrite pretty_N_go_0.
    reflexivity.
  - rewrite pretty_N_go_step by lia.
    rewrite pretty_N_go_step by div_lia.
    replace (x / 10 / 10)%N with 0%N by div_lia. rewrite pretty_N_go_0.
    replace (x / 10 mod 10)%N with (x / 10)%N by div_lia. reflexivity.
Qed.

Lemma zfill4_facts (x y : N) :
  (x < 10000)%N -> (y < 10000)%N ->
  String.length (zfill 4 (pretty x)) = 4%nat /\
  (zfill 4 (pretty x) = zfill 4 (pretty y) -> x = y).
Proof.
  intros Hx Hy. rewrite !zfill4_digits by done. split; [done|].
  intros [= H3 H2 H1 H0].
  apply pretty_N_char_inj in H3, H2, H1, H0; try div_lia.
Qed.

Lemma zfill2_facts (x y : N) :
  (x < 100)%N -> (y < 100)%N ->
  String.length (zfill 2 (pretty x)) = 2%nat /\
  (zfill 2 (pretty x) = zfill 2 (pretty y) -> x = y).
Proof.
  intros Hx Hy. rewrite !zfill2_digits by done. split; [done|].
  intros [= H1 H0].
  apply pretty_N_char_inj in H1, H0; try div_lia.
Qed.

Lemma string_app_inv_length (x1 x2 r1 r2 : string) :
  String.length x1 = String.length x2 ->
  x1 +:+ r1 = x2 +:+ r2 -> x1 = x2 /\ r1 = r2.
Proof.
  revert x2. induction x1 as [|a x1 IH]; intros [|b x2] Hlen H;
    try discriminate Hlen; [done|].
  change (String a (x1 +:+ r1) = String b (x2 +:+ r2)) in H.
  injection H as -> H. injection Hlen as Hlen.
  destruct (IH _ Hlen H) as [-> ->]. done.
Qed.

(** X16. On the dates Python's date type holds, isoformat gives different
    strings for different dates: comparing the stored peak_date with the
    snapshot's compares the dates. *)
Theorem isoformat_inj a b :
  date_in_range a -> date_in_range b ->
  isoformat a = isoformat b <-> a = b.
Proof.
  intros (Hya & Hma & Hda) (Hyb & Hmb & Hdb). split; [|by intros ->].
  destruct a as [ya ma da], b as [yb mb db]. unfold isoformat.
  cbn [year month day] in *.
  change (pretty ya) with (pretty (N.of_nat ya)).
  change (pretty yb) with (pretty (N.of_nat yb)).
  change (pretty ma) with (pretty (N.of_nat ma)).
  change (pretty mb) with (pretty (N.of_nat mb)).
  change (pretty da) with (pretty (N.of_nat da)).
  change (pretty db) with (pretty (N.of_nat db)).
  destruct (zfill4_facts (N.of_nat ya) (N.of_nat yb)) as [Lya Iy]; [lia..|].
  destruct (zfill4_facts (N.of_nat yb) (N.of_nat ya)) as [Lyb _]; [lia..|].
  destruct (zfill2_facts (N.of_nat ma) (N.of_nat mb)) as [Lma Im]; [lia..|].
  destruct (zfill2_facts (N.of_nat mb) (N.of_nat ma)) as [Lmb _]; [lia..|].
  destruct (zfill2_facts (N.of_nat da) (N.of_nat db)) as [_ Id]; [lia..|].
  intros H.
  apply string_app_inv_length in H as [Hy H]; [|congruence].
  apply String.app_inj in H.
  apply string_app_inv_length in H as [Hm H]; [|congruence].
  apply String.app_inj in H.
  f_equal; apply Nat2N.inj; auto.
Qed.

Lemma isoformat_inj_witness :
  isoformat (Date 2024 1 10) ≠ isoformat (Date 2024 3 1).
Proof.
  intros H.
  apply (isoformat_inj (Date 2024 1 10) (Date 2024 3 1)) in H.
  - discriminate H.
  - unfold date_in_range. cbn. lia.
  - unfold date_in_range. cbn. lia.
Defined.

(** ** A run does not read the log of calls *)

Lemma main_loop_body_forget now state rule env w :
  main_loop_body now state rule env w =
  let run := main_loop_body now state rule env (forget_calls w) in
  ({| state_file := state_file w; calls := calls w ++ calls run.1 |}, run.2).
Proof.
  destruct rule as [symbol levels]. rewrite !main_loop_body_run. cbn zeta.
  destruct (fetched env symbol) as [snap|e]; [|done].
  destruct (owed _ _ _ _) as [issue|]; [|done].
  destruct (gh_succeeds env issue); unfold log_call; cbn;
    by rewrite <- app_assoc.
Qed.


Lemma foldM_forget now rules state env w :
  foldM (main_loop_body now) state rules env w =
  let run := foldM (main_loop_body now) state rules env (forget_calls w) in
  ({| state_file := state_file w; calls := calls w ++ calls run.1 |}, run.2).
Proof.
  revert state w. induction rules as [|rule rules IH]; intros state w;
    cbn [foldM].
  - cbn. rewrite app_nil_r. by destruct w.
  - rewrite !bind_run, main_loop_body_forget. cbn zeta.
    destruct (main_loop_body now state rule env (forget_calls w))
      as [w1 [state1|e]] eqn:Hbody; cbn [fst snd]; [|done].
    destruct rule as [symbol levels].
    apply main_loop_body_frame in Hbody as [Hfile _]. cbn in Hfile.
    rewrite IH. rewrite (IH state1 w1). cbn zeta.
    assert (forget_calls {| state_file := state_file w;
                            calls := calls w ++ calls w1 |} = forget_calls w1)
      as -> by (unfold forget_calls; cbn; by rewrite Hfile).
    cbn. by rewrite <- app_assoc.
Qed.

Lemma main_forget env w :
  main env w =
  let run := main env (forget_calls w) in
  ({| state_file := state_file run.1; calls := calls w ++ calls run.1 |},
   run.2).
Proof.
  rewrite !main_run. cbn zeta. rewrite foldM_forget. cbn zeta.
  change (loaded (forget_calls w)) with (loaded w).
  destruct (foldM _ _ _ _ _) as [w1 [state|e]] eqn:Hloop; cbn; [done|].
  apply foldM_frame in Hloop as [Hfile _]. cbn in Hfile. by rewrite Hfile.
Qed.

(** A run reads the world through the state file alone: from two worlds
    with the same file it has the same outcome, writes the same file and
    makes the same calls. *)
Lemma run_reads_only_the_file env w1 w2 :
  state_file w1 = state_file w2 ->
  (main env w1).2 = (main env w2).2 /\
  state_file (main env w1).1 = state_file (main env w2).1 /\
  new_calls w1 (main env w1).1 = new_calls w2 (main env w2).1.
Proof.
  intros Hfile. rewrite (main_forget env w1), (main_forget env w2). cbn zeta.
  assert (forget_calls w1 = forget_calls w2) as ->
    by (unfold forget_calls; by rewrite Hfile).
  cbn [fst snd]. split; [done|]. split; [done|].
  unfold new_calls. cbn. by rewrite !drop_app_length.
Qed.

(** X17. A run that raised has no effect on the next one: the next run has the
    outcome, writes the file and makes the calls it would have had if the
    failed run had not taken place. So an issue whose gh call failed is
    tried again, and an issue filed before the failure is filed again. *)
Theorem aborted_run_leaves_no_trace env1 env2 w e :
  (main env1 w).2 = Raise e ->
  let w1 := (main env1 w).1 in
  (main env2 w1).2 = (main env2 w).2 /\
  state_file (main env2 w1).1 = state_file (main env2 w).1 /\
  new_calls w1 (main env2 w1).1 = new_calls w (main env2 w).1.
Proof.
  intros Hraise w1. apply run_reads_only_the_file.
  subst w1. destruct (main env1 w) as [w1 r] eqn:Hmain. cbn in *. subst r.
  by eapply main_raise_file.
Qed.

Lemma aborted_run_leaves_no_trace_witness :
  let env1 := env_TQQQ_only 0.65 "t1" in
  let env2 := env_uniform (after_peak 0.65) "t2" in
  let w1 := (main env1 fresh_world).1 in
  (main env2 w1).2 = (main env2 fresh_world).2 /\
  state_file (main env2 w1).1 = state_file (main env2 fresh_world).1 /\
  new_calls w1 (main env2 w1).1 = new_calls fresh_world (main env2 fresh_world).1.
Proof.
  intros env1 env2 w1.
  apply (aborted_run_leaves_no_trace env1 env2 fresh_world
           (RuntimeError (FailedToFetch "SOXL"))).
  vm_compute. reflexivity.
Defined.

(** * The decision and the state file *)

(** C3, as stated, fails: with peak date 2024-01-10 and level 2 on file,
    the run fetches for TQQQ a snapshot with peak date 2024-03-01 that
    reaches level 1 and files the issue for level 1; then the provider has
    nothing for SOXL, the run raises before save_state, and the
    notified_level on file is still 2. *)
Lemma peak_reset_not_saved_when_run_raises :
  let env := env_TQQQ_only 0.65 "t" in
  let w := world_with (stored_entry "2024-01-10" 2) in
  let snap := Snapshot.Make "2024-04-30" 0.65 "2024-03-01" 1 (0.65 / 1 - 1) in
  file_entry w "TQQQ" = Some (stored_entry "2024-01-10" 2) /\
  fetched env "TQQQ" = Ok snap /\
  Snapshot.peak_date snap <> "2024-01-10" /\
  decide_level (Snapshot.drawdown snap) TQQQ_levels = Some 1 /\
  alerts_for "TQQQ" (new_calls w (main env w).1)
    = [alert "TQQQ" 1 snap (-0.30)] /\
  (main env w).2 = Raise (RuntimeError (FailedToFetch "SOXL")) /\
  file_level (main env w).1 "TQQQ" = Some 2.
Proof.
  cbn zeta. split; [reflexivity|]. split; [vm_compute; reflexivity|].
  split; [vm_compute; discriminate|]. vm_compute. repeat split.
Qed.

(** C3, amended. In a run that returns: the file holds, for a symbol of
    RULES, an entry with peak date P and notified level n > 0; the
    snapshot of the run has another peak date, and decide_level gives h
    for it. Then exactly one issue is filed for the symbol in that run,
    at level h with the ladder's threshold at position h, whatever n is,
    and the notified_level in the file the run writes is h. *)
Theorem peak_reset_alert_saved env w w' symbol levels ss P n snap h :
  main env w = (w', Ok tt) ->
  (symbol, levels) ∈ RULES ->
  file_entry w symbol = Some ss ->
  SymState.peak_date ss = Some P ->
  SymState.notified_level ss = Some n ->
  n > 0 ->
  fetched env symbol = Ok snap ->
  Snapshot.peak_date snap ≠ P ->
  decide_level (Snapshot.drawdown snap) levels = Some h ->
  exists th,
    levels !! Z.to_nat (h - 1) = Some th /\
    alerts_for symbol (new_calls w w') = [alert symbol h snap th] /\
    file_level w' symbol = Some h.
Proof.
  intros Hmain Hin Hss HP Hn Hpos Hfetch Hpeak Hhit.
  destruct (decide_level_getitem _ _ _ Hhit) as (_ & _ & _ & Hh).
  destruct (owed_fires symbol levels (entry (loaded w) symbol) snap h Hhit)
    as (th & Hth & Howed).
  { unfold effective_level. rewrite file_peak_date_loaded.
    unfold file_peak_date. rewrite Hss. cbn. rewrite HP.
    rewrite bool_decide_true by congruence. lia. }
  exists th. split; [done|].
  destruct (main_Ok _ _ _ Hmain) as [_ Hrules].
  destruct (Hrules _ _ Hin) as (snap' & Hfetch' & Hentry & Halerts & _).
  assert (snap' = snap) as -> by congruence. cbn zeta in Hentry, Halerts.
  rewrite Howed in Hentry, Halerts. split; [done|].
  unfold file_level. by rewrite Hentry.
Qed.

Lemma peak_reset_alert_saved_witness :
  let env := env_uniform (after_peak 0.65) "t" in
  let w := world_with (stored_entry "2024-01-10" 2) in
  let snap := Snapshot.Make "2024-04-30" 0.65 "2024-03-01" 1 (0.65 / 1 - 1) in
  exists th,
    TQQQ_levels !! Z.to_nat (1 - 1) = Some th /\
    alerts_for "TQQQ" (new_calls w (main env w).1) = [alert "TQQQ" 1 snap th] /\
    file_level (main env w).1 "TQQQ" = Some 1.
Proof.
  intros env w snap.
  apply (peak_reset_alert_saved env w (main env w).1 "TQQQ" TQQQ_levels
           (stored_entry "2024-01-10" 2) "2024-01-10" 2 snap 1).
  - vm_compute. reflexivity.
  - apply list_elem_of_here.
  - reflexivity.
  - reflexivity.
  - reflexivity.
  - lia.
  - vm_compute. reflexivity.
  - vm_compute. discriminate.
  - vm_compute. reflexivity.
Defined.

(** C7, as stated, fails: TQQQ is evaluated, its loop body returns with
    the entry refreshed from the snapshot of 2024-04-30; then the provider
    has nothing for SOXL, the run raises before save_state, and the entry
    on file is the old one, with the old peak date and no last date. *)
Lemma mirror_fields_not_saved_when_run_raises :
  let env := env_TQQQ_only 0.9 "t" in
  let w := world_with (stored_entry "2024-01-10" 2) in
  let snap := Snapshot.Make "2024-04-30" 0.9 "2024-03-01" 1 (0.9 / 1 - 1) in
  fetched env "TQQQ" = Ok snap /\
  (main_loop_body "t" (loaded w) ("TQQQ", TQQQ_levels) env w).2
    = Ok (set_symbol "TQQQ"
            (next_entry "t" (stored_entry "2024-01-10" 2) snap None)
            (loaded w)) /\
  (main env w).2 = Raise (RuntimeError (FailedToFetch "SOXL")) /\
  file_entry (main env w).1 "TQQQ" = Some (stored_entry "2024-01-10" 2).
Proof.
  cbn zeta. split; [vm_compute; reflexivity|].
  split; [vm_compute; reflexivity|]. vm_compute. repeat split.
Qed.

(** C7, amended. In a run that returns, the entry on file of every symbol
    of RULES has its last date, last close, peak date, peak value and
    drawdown from the snapshot of the run, and the time of the run,
    whether or not an issue was filed for the symbol. In every run,
    returned or raised, a symbol for which decide_level gives None, or a
    level not above the effective notified level of the entry on file,
    has no issue filed and keeps the notified_level it has on file. *)
Theorem mirror_fields_saved env w :
  ((main env w).2 = Ok tt ->
   forall symbol levels,
     (symbol, levels) ∈ RULES ->
     exists snap ss',
       fetched env symbol = Ok snap /\
       file_entry (main env w).1 symbol = Some ss' /\
       mirrors (utcnow env) snap ss')
  /\ (forall symbol levels snap,
        (symbol, levels) ∈ RULES ->
        fetched env symbol = Ok snap ->
        (decide_level (Snapshot.drawdown snap) levels = None \/
         exists h, decide_level (Snapshot.drawdown snap) levels = Some h /\
                   h <= effective_level (entry (loaded w) symbol) snap) ->
        alerts_for symbol (new_calls w (main env w).1) = [] /\
        file_level (main env w).1 symbol = file_level w symbol).
Proof.
  split.
  - destruct (main env w) as [w' r] eqn:Hmain. cbn [fst snd]. intros ->.
    destruct (main_Ok _ _ _ Hmain) as [_ Hrules].
    intros symbol levels Hin.
    destruct (Hrules _ _ Hin) as (snap & Hfetch & Hentry & _).
    exists snap. eexists. split; [done|]. split; [exact Hentry|].
    apply next_entry_mirrors.
  - intros symbol levels snap Hin Hfetch Hsilent.
    apply (owed_silent symbol) in Hsilent. split.
    + destruct (main_new_calls env w) as (w1 & r & Hloop & ->).
      destruct (foldM_calls _ _ _ _ _ _ _ symbol RULES_NoDup Hloop)
        as [_ [->|(levels' & snap' & issue & Hin' & Hfetch' & Howed & _)]];
        [done|].
      assert (levels' = levels) as ->
        by (eapply rules_ladder_unique; [apply RULES_NoDup|done..]).
      assert (snap' = snap) as -> by congruence. congruence.
    + destruct (main env w) as [w' [[]|e]] eqn:Hmain; cbn [fst].
      * destruct (main_Ok _ _ _ Hmain) as [_ Hrules].
        destruct (Hrules _ _ Hin) as (snap' & Hfetch' & Hentry & _).
        assert (snap' = snap) as -> by congruence. cbn zeta in Hentry.
        rewrite Hsilent in Hentry. unfold file_level at 1. rewrite Hentry.
        cbn. apply file_level_loaded.
      * unfold file_level, file_entry.
        by rewrite (main_raise_file _ _ _ _ Hmain).
Qed.

Lemma mirror_fields_saved_witness :
  let w := world_with (stored_entry "2024-03-01" 1) in
  (let env := env_uniform (after_peak 0.20) "t" in
   exists snap ss',
     fetched env "TQQQ" = Ok snap /\
     file_entry (main env w).1 "TQQQ" = Some ss' /\
     mirrors "t" snap ss')
  /\ (let env := env_TQQQ_only 0.65 "t" in
      alerts_for "TQQQ" (new_calls w (main env w).1) = [] /\
      file_level (main env w).1 "TQQQ" = file_level w "TQQQ").
Proof.
  intros w. split.
  - intros env.
    apply (proj1 (mirror_fields_saved env w) eq_refl "TQQQ" TQQQ_levels).
    apply list_elem_of_here.
  - intros env.
    apply (proj2 (mirror_fields_saved env w) "TQQQ" TQQQ_levels
             (Snapshot.Make "2024-04-30" 0.65 "2024-03-01" 1 (0.65 / 1 - 1))).
    + apply list_elem_of_here.
    + vm_compute. reflexivity.
    + right. exists 1. split.
      * vm_compute. reflexivity.
      * vm_compute. discriminate.
Defined.
